(** * Jobly: a shallow embedding of the Express application

    The development follows the repository file by file:
    - [Js]: the fragment of JavaScript the sources rely on (values, objects
      as property lists and what they inherit, [Object.keys], unary plus,
      truthiness, comparison without regard to case);
    - [ExpressError]: the error classes the sources import;
    - [Sql]: helpers/sql.js;
    - [Express]: requests, responses, middleware outcomes, path patterns;
    - [Backend]: what the sources call and do not define (models, schemas,
      tokens, the guards of middleware/auth.js), as a class of environments;
    - [Handler]: the state-and-exception computations handlers are;
    - [Middleware]: middleware/ensureAdmin.js;
    - [Auth]: the [ensureAdmin] of middleware/auth.js as the specification
      describes it;
    - [Routes]: routes/jobs.js, routes/users.js, routes/companies.js,
      routes/auth.js;
    - [App]: app.js (mounting, the 404 catch-all, the error handler);
    - [Endpoints], [Surface], [Demo], [Worded]: the vocabulary of the
      statements, two small concrete environments, and the wording compared
      with the code.

    Definitions come first, theorems after them. *)

From Stdlib Require Import String Ascii List Bool Arith ZArith NArith Lia.
From Stdlib Require Import Decimal DecimalString Permutation.
Import ListNotations.
Set Warnings "-register-all".
Local Open Scope string_scope.
Local Open Scope list_scope.

(* ===================================================================== *)
(** * JavaScript values and objects *)
(* ===================================================================== *)

Module Js.

(** A JavaScript number, kept symbolically: [Finite neg mant exp10] stands
    for the double nearest to [(-1)^neg * mant * 10^exp10], the value of the
    literal it was read from.  For an integer of magnitude at most 2^53 and
    exponent 0 that double is the integer itself.  Beside it, the two
    infinities and NaN. *)
Inductive JsNumber : Type :=
| NaN
| Infinity (neg : bool)
| Finite (neg : bool) (mant : N) (exp10 : Z).

Inductive JsValue : Type :=
| JUndefined
| JNull
| JBool (b : bool)
| JNum (n : JsNumber)
| JStr (s : string)
| JArr (elems : list JsValue)
| JObj (props : list (string * JsValue)).

(** An ordinary object: its own enumerable string-keyed properties, in the
    order in which they were created.  Keys are pairwise distinct
    ([wf_obj]).  The members every object inherits are kept apart, in
    [Object_prototype] below. *)
Definition Obj (V : Type) : Type := list (string * V).

Definition wf_obj {V} (o : Obj V) : Prop := NoDup (map fst o).

(** The own property [k] of [o], [None] when it has none.  This is what
    [o[k]] reads for a key that names no inherited member, as do all the
    fixed keys the sources read ([isAdmin], [minSalary], [PORT], ...), with
    [None] standing for [undefined]; [lookup] below reads [o[k]] for an
    arbitrary key. *)
Fixpoint get {V} (o : Obj V) (k : string) : option V :=
  match o with
  | [] => None
  | (k', v) :: rest => if String.eqb k' k then Some v else get rest k
  end.

(** [o[k] = v]: an existing property keeps its place, a new one goes last. *)
Fixpoint set {V} (o : Obj V) (k : string) (v : V) : Obj V :=
  match o with
  | [] => [(k, v)]
  | (k', v') :: rest =>
      if String.eqb k' k then (k', v) :: rest else (k', v') :: set rest k v
  end.

Definition is_digit (c : ascii) : bool :=
  let n := N_of_ascii c in ((48 <=? n) && (n <=? 57))%N.

Definition digit_value (c : ascii) : N := (N_of_ascii c - 48)%N.

(** The value of a non-empty string of decimal digits. *)
Fixpoint digits_value (acc : N) (s : string) : option N :=
  match s with
  | EmptyString => Some acc
  | String c rest =>
      if is_digit c then digits_value (10 * acc + digit_value c)%N rest
      else None
  end.

(** An array index is a canonical numeric string (no sign, no leading
    zero) whose value is below 2^32 - 1. *)
Definition array_index (k : string) : option N :=
  match k with
  | EmptyString => None
  | String c rest =>
      if (Ascii.eqb c "0" && negb (String.eqb rest ""))%bool then None
      else match digits_value 0 k with
           | Some n => if (n <? 2 ^ 32 - 1)%N then Some n else None
           | None => None
           end
  end.

Definition is_array_index (k : string) : bool :=
  match array_index k with Some _ => true | None => false end.

Fixpoint insert_by_index {V} (i : N) (p : string * V)
    (l : list (N * (string * V))) : list (N * (string * V)) :=
  match l with
  | [] => [(i, p)]
  | (j, q) :: rest =>
      if (i <=? j)%N then (i, p) :: (j, q) :: rest
      else (j, q) :: insert_by_index i p rest
  end.

(** The properties whose key is an array index, in ascending index order. *)
Fixpoint index_props {V} (o : Obj V) : list (N * (string * V)) :=
  match o with
  | [] => []
  | p :: rest =>
      match array_index (fst p) with
      | Some i => insert_by_index i p (index_props rest)
      | None => index_props rest
      end
  end.

Definition named_props {V} (o : Obj V) : Obj V :=
  filter (fun p => negb (is_array_index (fst p))) o.

(** OrdinaryOwnPropertyKeys: array indices in ascending numeric order, then
    the other string keys in creation order. *)
Definition own_props {V} (o : Obj V) : Obj V :=
  map snd (index_props o) ++ named_props o.

Definition Object_keys {V} (o : Obj V) : list string := map fst (own_props o).

Definition Object_values {V} (o : Obj V) : list V := map snd (own_props o).

(** [Array.prototype.map] with the callback's index argument. *)
Fixpoint Array_map_from {A B} (f : A -> nat -> B) (idx : nat) (l : list A)
    : list B :=
  match l with
  | [] => []
  | x :: rest => f x idx :: Array_map_from f (S idx) rest
  end.

Definition Array_map {A B} (f : A -> nat -> B) (l : list A) : list B :=
  Array_map_from f 0 l.

(** [Array.prototype.join] on an array of strings. *)
Definition Array_join (l : list string) (sep : string) : string :=
  String.concat sep l.

(** Number-to-string on a natural number (an array length or index). *)
Definition nat_to_string (n : nat) : string :=
  NilEmpty.string_of_uint (Nat.to_uint n).

(** [a || b] on strings, [None] standing for [undefined]: the empty string
    and [undefined] are falsy. *)
Definition or_string (a : option string) (b : string) : string :=
  match a with
  | Some s => if String.eqb s "" then b else s
  | None => b
  end.

Definition dquote : string := String "034"%char EmptyString.

(** ** Inherited members

    An object written as a literal (or made by [JSON.parse]) inherits the
    members of [Object.prototype].  All of them are functions, but for
    [__proto__], which reads as the prototype itself; so all are truthy.
    What matters of them here is the text each converts to in a template
    literal (as V8 prints a native function). *)

Definition native_function (name : string) : string :=
  "function " ++ name ++ "() { [native code] }".

(** [constructor] is the function [Object]; the other functions are named
    as their key. *)
Definition Object_prototype (k : string) : option string :=
  if String.eqb k "constructor" then Some (native_function "Object")
  else if existsb (String.eqb k)
       ["__defineGetter__"; "__defineSetter__";
        "hasOwnProperty"; "__lookupGetter__"; "__lookupSetter__";
        "isPrototypeOf"; "propertyIsEnumerable"; "toString"; "valueOf";
        "toLocaleString"]
  then Some (native_function k)
  else if String.eqb k "__proto__" then Some "[object Object]"
  else None.

(** What [o[k]] finds on an object whose own values are strings: an own
    value, or else an inherited member, given by its text. *)
Inductive Member : Type :=
| OwnValue (s : string)
| InheritedMember (text : string).

Definition lookup (o : Obj string) (k : string) : option Member :=
  match get o k with
  | Some s => Some (OwnValue s)
  | None =>
      match Object_prototype k with
      | Some text => Some (InheritedMember text)
      | None => None
      end
  end.

Definition member_truthy (m : Member) : bool :=
  match m with
  | OwnValue s => negb (String.eqb s "")
  | InheritedMember _ => true
  end.

Definition member_text (m : Member) : string :=
  match m with
  | OwnValue s => s
  | InheritedMember text => text
  end.

(** The text of [a || b] in a template literal, for [a] the result of a
    lookup ([None] standing for [undefined]) and [b] a string. *)
Definition or_member (a : option Member) (b : string) : string :=
  match a with
  | Some m => if member_truthy m then member_text m else b
  | None => b
  end.

(** ** Comparing without regard to case

    The regular expressions Express makes of route paths carry the flag
    [i]: the letters a to z match their capitals, and no other character
    matches a letter. *)

Definition ascii_upper (c : ascii) : ascii :=
  let n := N_of_ascii c in
  if ((97 <=? n) && (n <=? 122))%N then ascii_of_N (n - 32) else c.

Fixpoint upper (s : string) : string :=
  match s with
  | EmptyString => EmptyString
  | String c rest => String (ascii_upper c) (upper rest)
  end.

Definition eqb_ci (a b : string) : bool := String.eqb (upper a) (upper b).

Arguments eqb_ci : simpl never.

(** ** Truthiness *)

(** The double nearest to [mant * 10^exp10] is zero: the value is zero, or
    at most 2^-1075, half the least positive double (a tie goes to the
    even neighbour, which is zero). *)
Definition rounds_to_zero (mant : N) (exp10 : Z) : bool :=
  if (mant =? 0)%N then true
  else if (0 <=? exp10)%Z then false
  else (Z.of_N mant * 2 ^ 1075 <=? 10 ^ (- exp10))%Z.

Definition is_zero_or_nan (n : JsNumber) : bool :=
  match n with
  | NaN => true
  | Infinity _ => false
  | Finite _ mant exp10 => rounds_to_zero mant exp10
  end.

(** ToBoolean. *)
Definition truthy (v : JsValue) : bool :=
  match v with
  | JUndefined | JNull => false
  | JBool b => b
  | JNum n => negb (is_zero_or_nan n)
  | JStr s => negb (String.eqb s "")
  | JArr _ | JObj _ => true
  end.

(** A property read whose result may be [undefined]. *)
Definition or_undefined (v : option JsValue) : JsValue :=
  match v with Some x => x | None => JUndefined end.

(** ** String to number

    Strings are sequences of code units below 256.  The white space and
    line terminators among them are TAB, LF, VT, FF, CR, SP and NBSP. *)

Definition is_space (c : ascii) : bool :=
  let n := N_of_ascii c in
  (((9 <=? n) && (n <=? 13)) || (n =? 32) || (n =? 160))%N.

Fixpoint trim_start (s : string) : string :=
  match s with
  | String c rest => if is_space c then trim_start rest else s
  | EmptyString => EmptyString
  end.

(** Drops trailing white space: a character is dropped when everything
    after it has been dropped and it is white space itself. *)
Fixpoint trim_end (s : string) : string :=
  match s with
  | EmptyString => EmptyString
  | String c rest =>
      match trim_end rest with
      | EmptyString => if is_space c then EmptyString else String c EmptyString
      | t => String c t
      end
  end.

Definition trim (s : string) : string := trim_end (trim_start s).

(** The longest prefix of characters satisfying [p], and the rest. *)
Fixpoint span (p : ascii -> bool) (s : string) : string * string :=
  match s with
  | EmptyString => (EmptyString, EmptyString)
  | String c rest =>
      if p c then let (a, b) := span p rest in (String c a, b)
      else (EmptyString, s)
  end.

(** The value of a hexadecimal, octal or binary digit, when [c] is one. *)
Definition radix_digit (radix : N) (c : ascii) : option N :=
  let n := N_of_ascii c in
  let d :=
    if ((48 <=? n) && (n <=? 57))%N then Some (n - 48)%N
    else if ((97 <=? n) && (n <=? 102))%N then Some (n - 87)%N
    else if ((65 <=? n) && (n <=? 70))%N then Some (n - 55)%N
    else None in
  match d with
  | Some v => if (v <? radix)%N then Some v else None
  | None => None
  end.

Fixpoint radix_value (radix : N) (acc : N) (s : string) : option N :=
  match s with
  | EmptyString => Some acc
  | String c rest =>
      match radix_digit radix c with
      | Some d => radix_value radix (radix * acc + d)%N rest
      | None => None
      end
  end.

(** The digits after [0x], [0o] or [0b]: at least one. *)
Definition radix_literal (radix : N) (digits : string) : JsNumber :=
  match digits with
  | EmptyString => NaN
  | _ => match radix_value radix 0 digits with
         | Some n => Finite false n 0
         | None => NaN
         end
  end.

(** What follows the mantissa: nothing, or [e] or [E], an optional sign
    and at least one digit. *)
Definition parse_exponent (s : string) : option Z :=
  match s with
  | EmptyString => Some 0%Z
  | String c rest =>
      if (Ascii.eqb c "e" || Ascii.eqb c "E")%bool then
        let '(neg, ds) :=
          match rest with
          | String "+" r => (false, r)
          | String "-" r => (true, r)
          | _ => (false, rest)
          end in
        match ds with
        | EmptyString => None
        | _ => match digits_value 0 ds with
               | Some n => Some (if neg then (- Z.of_N n)%Z else Z.of_N n)
               | None => None
               end
        end
      else None
  end.

Definition digits_or_zero (s : string) : N :=
  match digits_value 0 s with Some n => n | None => 0%N end.

(** StrUnsignedDecimalLiteral other than [Infinity]: mantissa and decimal
    exponent. *)
Definition parse_unsigned_decimal (s : string) : option (N * Z) :=
  let (ip, r1) := span is_digit s in
  match r1 with
  | String "." r2 =>
      let (fp, r3) := span is_digit r2 in
      if (String.eqb ip "" && String.eqb fp "")%bool then None
      else match parse_exponent r3 with
           | Some e =>
               Some (digits_or_zero (ip ++ fp),
                     (e - Z.of_nat (String.length fp))%Z)
           | None => None
           end
  | _ =>
      if String.eqb ip "" then None
      else match parse_exponent r1 with
           | Some e => Some (digits_or_zero ip, e)
           | None => None
           end
  end.

Definition parse_signed_decimal (neg : bool) (s : string) : JsNumber :=
  if String.eqb s "Infinity" then Infinity neg
  else match parse_unsigned_decimal s with
       | Some (m, e) => Finite neg m e
       | None => NaN
       end.

(** StringToNumber. *)
Definition StringToNumber (str : string) : JsNumber :=
  match trim str with
  | EmptyString => Finite false 0 0
  | String "0" (String "x" ds) | String "0" (String "X" ds) =>
      radix_literal 16 ds
  | String "0" (String "o" ds) | String "0" (String "O" ds) =>
      radix_literal 8 ds
  | String "0" (String "b" ds) | String "0" (String "B" ds) =>
      radix_literal 2 ds
  | String "+" rest => parse_signed_decimal false rest
  | String "-" rest => parse_signed_decimal true rest
  | s => parse_signed_decimal false s
  end.

Section Conversions.

(** Number-to-string on an arbitrary number is left to the engine. *)
Variable NumberToString : JsNumber -> string.

(** ToString; an array joins its elements with a comma, [null] and
    [undefined] elements giving the empty string. *)
Fixpoint ToString (v : JsValue) : string :=
  match v with
  | JUndefined => "undefined"
  | JNull => "null"
  | JBool b => if b then "true" else "false"
  | JNum n => NumberToString n
  | JStr s => s
  | JArr elems =>
      String.concat ","
        (map (fun e => match e with
                       | JUndefined | JNull => ""
                       | _ => ToString e
                       end) elems)
  | JObj _ => "[object Object]"
  end.

(** ToNumber, which is what unary plus computes.  An array or object is
    first converted to a primitive, which for these is its string. *)
Definition ToNumber (v : JsValue) : JsNumber :=
  match v with
  | JUndefined => NaN
  | JNull => Finite false 0 0
  | JBool b => if b then Finite false 1 0 else Finite false 0 0
  | JNum n => n
  | JStr s => StringToNumber s
  | JArr _ | JObj _ => StringToNumber (ToString v)
  end.

End Conversions.

(** ** Own properties of a value, as object spread copies them *)

Fixpoint indexed_from {A} (i : nat) (l : list A) : list (string * A) :=
  match l with
  | [] => []
  | x :: rest => (nat_to_string i, x) :: indexed_from (S i) rest
  end.

Fixpoint chars (s : string) : list JsValue :=
  match s with
  | EmptyString => []
  | String c rest => JStr (String c EmptyString) :: chars rest
  end.

(** [{...v}]: the own enumerable properties of [v] in key order; [null],
    [undefined], booleans and numbers have none. *)
Definition spread (v : JsValue) : Obj JsValue :=
  match v with
  | JObj o => own_props o
  | JArr elems => indexed_from 0 elems
  | JStr s => indexed_from 0 (chars s)
  | _ => []
  end.

End Js.

(* ===================================================================== *)
(** * expressError.js *)
(* ===================================================================== *)

Module ExpressError.
Import Js.

(** A thrown JavaScript error, as the application reads it: [err.status]
    ([None] for [undefined]) and [err.message]. *)
Record JsError : Type := mkError {
  err_name : string;
  err_status : option Z;
  err_message : JsValue
}.

(** Modelled from the spec: expressError.js is not among the sources.  The
    spec gives each class its status: validation failures 400, authorization
    failures 401 or 403, missing resources 404.  The constructor argument is
    the message. *)
Definition BadRequestError (message : JsValue) : JsError :=
  mkError "BadRequestError" (Some 400%Z) message.

Definition UnauthorizedError (message : JsValue) : JsError :=
  mkError "UnauthorizedError" (Some 401%Z) message.

Definition ForbiddenError (message : JsValue) : JsError :=
  mkError "ForbiddenError" (Some 403%Z) message.

Definition NotFoundError (message : JsValue) : JsError :=
  mkError "NotFoundError" (Some 404%Z) message.

(** The outcome of evaluating an expression or a function body. *)
Inductive Result (A : Type) : Type :=
| Return (a : A)
| Throw (e : JsError).

Arguments Return {A} a.
Arguments Throw {A} e.

End ExpressError.

(* ===================================================================== *)
(** * helpers/sql.js *)
(* ===================================================================== *)

Module Sql.
Import Js ExpressError.

Record SqlUpdate (V : Type) : Type := mkSqlUpdate {
  setCols : string;
  values : list V
}.

Arguments mkSqlUpdate {V} setCols values.
Arguments setCols {V} s.
Arguments values {V} s.

(** [`"${jsToSql[colName] || colName}"=$${idx + 1}`] *)
Definition col_assignment (jsToSql : Obj string) (colName : string)
    (idx : nat) : string :=
  dquote ++ or_member (lookup jsToSql colName) colName ++ dquote ++ "=$"
         ++ nat_to_string (idx + 1).

(** [dataToUpdate] holds arbitrary values, which the function only moves
    around; [jsToSql] is an object literal that maps field names to column
    names. *)
Definition sqlForPartialUpdate {V} (dataToUpdate : Obj V)
    (jsToSql : Obj string) : Result (SqlUpdate V) :=
  let keys := Object_keys dataToUpdate in
  if Nat.eqb (length keys) 0 then Throw (BadRequestError (JStr "No data"))
  else
    let cols := Array_map (col_assignment jsToSql) keys in
    Return {| setCols := Array_join cols ", ";
              values := Object_values dataToUpdate |}.

End Sql.

(* ===================================================================== *)
(** * config.js *)
(* ===================================================================== *)

Module Config.
Import Js.

(** [process.env] once [dotenv] has loaded the .env file: an object whose
    values are strings. *)
Definition ProcessEnv : Type := Obj string.

(** [delete o[k]] *)
Fixpoint delete {V} (o : Obj V) (k : string) : Obj V :=
  match o with
  | [] => []
  | (k', v) :: rest =>
      if String.eqb k' k then delete rest k else (k', v) :: delete rest k
  end.

(** [a || b] on numbers: zero and NaN are falsy. *)
Definition or_number (a b : JsNumber) : JsNumber :=
  if is_zero_or_nan a then b else a.

(** Unary plus on [process.env.NAME], a string or [undefined]. *)
Definition plus_env (v : option string) : JsNumber :=
  match v with
  | Some s => StringToNumber s
  | None => NaN
  end.

(** [v === "test"] for [v] a string or [undefined]. *)
Definition is_test (v : option string) : bool :=
  match v with
  | Some s => String.eqb s "test"
  | None => false
  end.

(** [process.env.SECRET_KEY || "secret-dev"] *)
Definition SECRET_KEY (env : ProcessEnv) : string :=
  or_string (get env "SECRET_KEY") "secret-dev".

(** [+process.env.PORT || 3001] *)
Definition PORT (env : ProcessEnv) : JsNumber :=
  or_number (plus_env (get env "PORT")) (Finite false 3001 0).

Definition getDatabaseUri (env : ProcessEnv) : string :=
  if is_test (get env "NODE_ENV") then "postgresql:///jobly_test"
  else or_string (get env "DATABASE_URL") "postgresql:///jobly".

(** [process.env.NODE_ENV === "test" ? 1 : 12] *)
Definition BCRYPT_WORK_FACTOR (env : ProcessEnv) : N :=
  if is_test (get env "NODE_ENV") then 1%N else 12%N.

(** What [require("./config")] exports (the logging apart): the three
    constants are computed once, from the environment at load time;
    [getDatabaseUri] reads the environment each time it is called. *)
Record Exports : Type := mkExports {
  exported_SECRET_KEY : string;
  exported_PORT : JsNumber;
  exported_BCRYPT_WORK_FACTOR : N;
  exported_getDatabaseUri : ProcessEnv -> string
}.

Definition load (env : ProcessEnv) : Exports :=
  mkExports (SECRET_KEY env) (PORT env) (BCRYPT_WORK_FACTOR env) getDatabaseUri.

End Config.

(* ===================================================================== *)
(** * Express: requests, responses, handlers *)
(* ===================================================================== *)

Module Express.
Import Js ExpressError.

(** The request methods; HEAD and OPTIONS, which Express and [cors()]
    answer on their own, are left out. *)
Inductive Method : Type := GET | POST | PATCH | DELETE | PUT.

Definition method_eqb (a b : Method) : bool :=
  match a, b with
  | GET, GET | POST, POST | PATCH, PATCH | DELETE, DELETE | PUT, PUT => true
  | _, _ => false
  end.

(** The request as the routers see it, that is after [cors()],
    [express.json()], [morgan] and [authenticateJWT] have run and passed it
    on: [path] is the list of the segments between the slashes of the URL
    path (a trailing slash leaves none; the segments are taken free of
    percent escapes, so that each is its own decoded form), [query] the
    parsed query string, [body] the parsed JSON body, [user] the payload of
    the token ([None] when [req.user] is undefined), [params] the route
    parameters (filled in by the router). *)
Record Request : Type := mkRequest {
  method : Method;
  path : list string;
  query : Obj JsValue;
  body : JsValue;
  user : option (Obj JsValue);
  params : Obj string
}.

Definition with_params (req : Request) (ps : Obj string) : Request :=
  mkRequest (method req) (path req) (query req) (body req) (user req) ps.

Definition with_path (req : Request) (p : list string) : Request :=
  mkRequest (method req) p (query req) (body req) (user req) (params req).

(** What [res.status(s).json(v)] sends; [res.json(v)] sends status 200. *)
Record Response : Type := mkResponse {
  status : Z;
  json : JsValue
}.

Definition res_status_json (s : Z) (v : JsValue) : Response := mkResponse s v.
Definition res_json (v : JsValue) : Response := mkResponse 200 v.

(** How a handler or middleware ends: [next()], [next(err)], or a response
    sent. *)
Inductive Outcome : Type :=
| Next
| NextErr (e : JsError)
| Respond (r : Response).

Definition int_number (z : Z) : JsNumber :=
  Finite (z <? 0)%Z (Z.abs_N z) 0.

(** [req.params.name]; a matched route always has its parameters. *)
Definition param (req : Request) (name : string) : string :=
  match get (params req) name with Some v => v | None => "" end.

(** A path pattern: literal segments and named parameters. *)
Inductive Seg : Type := Lit (s : string) | Par (name : string).

(** A literal segment matches without regard to case; a parameter takes
    one segment, which must not be empty. *)
Fixpoint match_path (pat : list Seg) (p : list string) : option (Obj string) :=
  match pat, p with
  | [], [] => Some []
  | Lit s :: pat', x :: p' =>
      if eqb_ci x s then match_path pat' p' else None
  | Par name :: pat', x :: p' =>
      if String.eqb x "" then None
      else match match_path pat' p' with
           | Some ps => Some ((name, x) :: ps)
           | None => None
           end
  | _, _ => None
  end.

End Express.

(* ===================================================================== *)
(** * The environment: models, schemas, tokens *)
(* ===================================================================== *)

Module Backend.
Import Js ExpressError Express.

(** The calls the routes make into models/company.js, models/job.js and
    models/user.js, with their arguments. *)
Inductive ModelCall : Type :=
| Company_create (data : JsValue)
| Company_findAll (filters : JsValue)
| Company_get (handle : string)
| Company_update (handle : string) (data : JsValue)
| Company_remove (handle : string)
| Job_create (data : JsValue)
| Job_findAll (filters : JsValue)
| Job_get (id : string)
| Job_update (id : string) (data : JsValue)
| Job_remove (id : string)
| User_register (data : JsValue)
| User_authenticate (username password : JsValue)
| User_findAll
| User_get (username : string)
| User_update (username : string) (data : JsValue)
| User_remove (username : string)
| User_applyToJob (username : string) (jobId : JsNumber).

(** The files under schemas/. *)
Inductive Schema : Type :=
| jobNewSchema | jobUpdateSchema | jobSearchSchema
| companyNewSchema | companyUpdateSchema | companySearchSchema
| userNewSchema | userUpdateSchema
| userAuthSchema | userRegisterSchema.

Record ValidationError : Type := mkValidationError { stack : string }.

(** The result of [jsonschema.validate]. *)
Record ValidatorResult : Type := mkValidatorResult {
  valid : bool;
  errors : list ValidationError
}.

(** What the sources use and do not define: the database and the model
    layer over it, the jsonschema library with the schema files, the token
    helper, the two authorization middlewares the routes import from
    middleware/auth.js ([ensureAdmin], here [auth_ensureAdmin], and
    [ensureCorrectUserOrAdmin]; each decides on the request alone whether
    to call [next()], to pass an error on, or to answer), the engine's
    number printing, and the default message of [NotFoundError]. *)
Class Env : Type := {
  DB : Type;
  model : ModelCall -> DB -> Result JsValue * DB;
  jsonschema_validate : JsValue -> Schema -> ValidatorResult;
  createToken : JsValue -> Result JsValue;
  auth_ensureAdmin : Request -> Outcome;
  ensureCorrectUserOrAdmin : Request -> Outcome;
  NumberToString : JsNumber -> string;
  NotFound_message : JsValue
}.

(** The state a request runs in: the database and the log of the model
    calls made so far, oldest first. *)
Record World `{Env} : Type := mkWorld {
  db : DB;
  calls : list ModelCall
}.

Arguments mkWorld {_} db calls.

End Backend.

(* ===================================================================== *)
(** * Handlers as state-and-exception computations *)
(* ===================================================================== *)

Module Handler.
Import Js ExpressError Express Backend.

Section WithEnv.
Context `{E : Env}.

Definition M (A : Type) : Type := World -> Result A * World.

Definition ret {A} (a : A) : M A := fun w => (Return a, w).

Definition throw {A} (e : JsError) : M A := fun w => (Throw e, w).

Definition bind {A B} (m : M A) (k : A -> M B) : M B :=
  fun w =>
    match m w with
    | (Return a, w') => k a w'
    | (Throw e, w') => (Throw e, w')
    end.

(** [await Model.op(args)]: the call is logged and run on the database. *)
Definition call (c : ModelCall) : M JsValue :=
  fun w =>
    let (r, db') := model c (db w) in
    (r, mkWorld db' (calls w ++ [c])).

(** A call that touches no state. *)
Definition lift {A} (r : Result A) : M A := fun w => (r, w).

Definition Handler : Type := Request -> World -> Outcome * World.

(** [try { ...; return res.json(...) } catch (err) { return next(err) }] *)
Definition try_next (m : M Response) : World -> Outcome * World :=
  fun w =>
    match m w with
    | (Return r, w') => (Respond r, w')
    | (Throw err, w') => (NextErr err, w')
    end.

(** A middleware that looks at the request only. *)
Definition pure_middleware (f : Request -> Outcome) : Handler :=
  fun req w => (f req, w).

End WithEnv.

Declare Scope handler_scope.
Delimit Scope handler_scope with handler.

Notation "x <- m ;; k" := (bind m (fun x => k))
  (at level 100, m at next level, right associativity) : handler_scope.
Notation "m ;; k" := (bind m (fun _ => k))
  (at level 100, right associativity) : handler_scope.

End Handler.

(* ===================================================================== *)
(** * middleware/ensureAdmin.js *)
(* ===================================================================== *)

Module Middleware.
Import Js ExpressError Express Backend Handler.

(** [!req.user || !req.user.isAdmin] *)
Definition not_admin (req : Request) : bool :=
  match user req with
  | None => true
  | Some u => negb (truthy (or_undefined (get u "isAdmin")))
  end.

Definition admin_required_response : Response :=
  res_status_json 403
    (JObj [("error", JStr "You must be an admin to perform this action.")]).

Definition ensureAdmin_outcome (req : Request) : Outcome :=
  if not_admin req then Respond admin_required_response
  else Next.

(** The middleware as Express runs it.  No file of the sources requires
    this module: the routes import their [ensureAdmin] from
    ../middleware/auth. *)
Definition ensureAdmin `{Env} : Handler := pure_middleware ensureAdmin_outcome.

End Middleware.

(* ===================================================================== *)
(** * middleware/auth.js, as the specification has it *)
(* ===================================================================== *)

Module Auth.
Import Js ExpressError Express Middleware.

(** The two authorization failures of the specification. *)
Inductive Refusal : Type := Unauthorized | Forbidden.

Definition refusal_error (r : Refusal) (message : JsValue) : JsError :=
  match r with
  | Unauthorized => UnauthorizedError message
  | Forbidden => ForbiddenError message
  end.

(** Modelled from the spec: middleware/auth.js, the module the routes
    import [ensureAdmin] from, is not among the sources.  By the
    specification an authorization failure produces 401 or 403 and all
    errors flow through the centralized handler: a request whose user is
    absent or not an admin is refused with an [UnauthorizedError] or a
    [ForbiddenError] passed to [next], and an admin's request is passed on
    with [next()].  Which of the two errors a request gets, and with what
    message, the specification leaves open. *)
Definition ensureAdmin (refusal : Request -> Refusal) (message : JsValue)
    (req : Request) : Outcome :=
  if not_admin req then NextErr (refusal_error (refusal req) message)
  else Next.

End Auth.

(* ===================================================================== *)
(** * routes/jobs.js, routes/users.js, routes/companies.js, routes/auth.js *)
(* ===================================================================== *)

Module Routes.
Import Js ExpressError Express Backend Handler.
Local Open Scope handler_scope.

Section WithEnv.
Context `{E : Env}.

(** [const { ensureAdmin, ensureCorrectUserOrAdmin } =
     require(<../middleware/auth>)]: the two guards of the routes are the
    ones of that module, which the sources do not hold. *)
Definition ensureAdmin : Handler := pure_middleware auth_ensureAdmin.

Definition correctUserOrAdmin : Handler :=
  pure_middleware ensureCorrectUserOrAdmin.

(** [validator.errors.map(e => e.stack)] *)
Definition error_stacks (validator : ValidatorResult) : JsValue :=
  JArr (map (fun e => JStr (stack e)) (errors validator)).

(** The validation block every validating handler opens with:
    [const validator = jsonschema.validate(data, schema);
     if (!validator.valid) { const errs = ...; throw new BadRequestError(errs); }] *)
Definition validate (data : JsValue) (schema : Schema) : M unit :=
  let validator := jsonschema_validate data schema in
  if negb (valid validator) then throw (BadRequestError (error_stacks validator))
  else ret tt.

(** [if (q.name !== undefined) q.name = +q.name;] *)
Definition convert_number (q : Obj JsValue) (name : string) : Obj JsValue :=
  match get q name with
  | Some JUndefined | None => q
  | Some v => set q name (JNum (ToNumber NumberToString v))
  end.

(** [v === "true"] *)
Definition is_string_true (v : JsValue) : bool :=
  match v with
  | JStr s => String.eqb s "true"
  | _ => false
  end.

(** A route: method, path pattern, and its handlers in order. *)
Record Route : Type := mkRoute {
  route_method : Method;
  route_path : list Seg;
  route_handlers : list Handler
}.

(** ** routes/jobs.js *)

Definition jobs_post : Handler := fun req =>
  try_next (
    validate (body req) jobNewSchema ;;
    job <- call (Job_create (body req)) ;;
    ret (res_status_json 201 (JObj [("job", job)]))).

(** The query object after the two conversions that precede [try]. *)
Definition jobs_query (req : Request) : Obj JsValue :=
  let q := query req in
  let q := convert_number q "minSalary" in
  set q "hasEquity"
      (JBool (is_string_true (or_undefined (get q "hasEquity")))).

Definition jobs_get_all : Handler := fun req =>
  let q := jobs_query req in
  try_next (
    validate (JObj q) jobSearchSchema ;;
    jobs <- call (Job_findAll (JObj q)) ;;
    ret (res_json (JObj [("jobs", jobs)]))).

Definition jobs_get : Handler := fun req =>
  try_next (
    job <- call (Job_get (param req "id")) ;;
    ret (res_json (JObj [("job", job)]))).

Definition jobs_patch : Handler := fun req =>
  try_next (
    validate (body req) jobUpdateSchema ;;
    job <- call (Job_update (param req "id") (body req)) ;;
    ret (res_json (JObj [("job", job)]))).

Definition jobs_delete : Handler := fun req =>
  try_next (
    call (Job_remove (param req "id")) ;;
    ret (res_json
           (JObj [("deleted", JNum (StringToNumber (param req "id")))]))).

Definition jobsRoutes : list Route :=
  [ mkRoute POST [] [ensureAdmin; jobs_post];
    mkRoute GET [] [jobs_get_all];
    mkRoute GET [Par "id"] [jobs_get];
    mkRoute PATCH [Par "id"] [ensureAdmin; jobs_patch];
    mkRoute DELETE [Par "id"] [ensureAdmin; jobs_delete] ].

(** ** routes/users.js *)

Definition users_post : Handler := fun req =>
  try_next (
    validate (body req) userNewSchema ;;
    user <- call (User_register (body req)) ;;
    token <- lift (createToken user) ;;
    ret (res_status_json 201 (JObj [("user", user); ("token", token)]))).

Definition users_get_all : Handler := fun req =>
  try_next (
    users <- call User_findAll ;;
    ret (res_json (JObj [("users", users)]))).

Definition users_get : Handler := fun req =>
  try_next (
    user <- call (User_get (param req "username")) ;;
    ret (res_json (JObj [("user", user)]))).

Definition users_patch : Handler := fun req =>
  try_next (
    validate (body req) userUpdateSchema ;;
    user <- call (User_update (param req "username") (body req)) ;;
    ret (res_json (JObj [("user", user)]))).

Definition users_delete : Handler := fun req =>
  try_next (
    call (User_remove (param req "username")) ;;
    ret (res_json (JObj [("deleted", JStr (param req "username"))]))).

Definition users_apply : Handler := fun req =>
  try_next (
    let jobId := StringToNumber (param req "id") in
    call (User_applyToJob (param req "username") jobId) ;;
    ret (res_json (JObj [("applied", JNum jobId)]))).

Definition usersRoutes : list Route :=
  [ mkRoute POST [] [ensureAdmin; users_post];
    mkRoute GET [] [ensureAdmin; users_get_all];
    mkRoute GET [Par "username"] [correctUserOrAdmin; users_get];
    mkRoute PATCH [Par "username"] [correctUserOrAdmin; users_patch];
    mkRoute DELETE [Par "username"] [correctUserOrAdmin; users_delete];
    mkRoute POST [Par "username"; Lit "jobs"; Par "id"]
            [correctUserOrAdmin; users_apply] ].

(** ** routes/companies.js *)

Definition companies_post : Handler := fun req =>
  try_next (
    validate (body req) companyNewSchema ;;
    company <- call (Company_create (body req)) ;;
    ret (res_status_json 201 (JObj [("company", company)]))).

Definition companies_query (req : Request) : Obj JsValue :=
  let q := query req in
  let q := convert_number q "minEmployees" in
  convert_number q "maxEmployees".

Definition companies_get_all : Handler := fun req =>
  let q := companies_query req in
  try_next (
    validate (JObj q) companySearchSchema ;;
    companies <- call (Company_findAll (JObj q)) ;;
    ret (res_json (JObj [("companies", companies)]))).

Definition companies_get : Handler := fun req =>
  try_next (
    company <- call (Company_get (param req "handle")) ;;
    ret (res_json (JObj [("company", company)]))).

Definition companies_patch : Handler := fun req =>
  try_next (
    validate (body req) companyUpdateSchema ;;
    company <- call (Company_update (param req "handle") (body req)) ;;
    ret (res_json (JObj [("company", company)]))).

Definition companies_delete : Handler := fun req =>
  try_next (
    call (Company_remove (param req "handle")) ;;
    ret (res_json (JObj [("deleted", JStr (param req "handle"))]))).

Definition companiesRoutes : list Route :=
  [ mkRoute POST [] [ensureAdmin; companies_post];
    mkRoute GET [] [companies_get_all];
    mkRoute GET [Par "handle"] [companies_get];
    mkRoute PATCH [Par "handle"] [ensureAdmin; companies_patch];
    mkRoute DELETE [Par "handle"] [ensureAdmin; companies_delete] ].

(** ** routes/auth.js *)

(** Reading the property [k] of [req.body] for the destructuring pattern
    [{ username, password }]: it throws a TypeError (which has no [status])
    on [null] and [undefined], and otherwise reads an own property. *)
Definition destructure (v : JsValue) (k : string) : Result JsValue :=
  match v with
  | JUndefined | JNull =>
      Throw (mkError "TypeError" None
               (JStr ("Cannot destructure property '" ++ k ++ "' of 'req.body' as it is "
                      ++ (match v with JNull => "null" | _ => "undefined" end)
                      ++ ".")))
  | JObj o => Return (or_undefined (get o k))
  | _ => Return (or_undefined (get (spread v) k))
  end.

Definition auth_token : Handler := fun req =>
  try_next (
    validate (body req) userAuthSchema ;;
    username <- lift (destructure (body req) "username") ;;
    password <- lift (destructure (body req) "password") ;;
    user <- call (User_authenticate username password) ;;
    token <- lift (createToken user) ;;
    ret (res_json (JObj [("token", token)]))).

(** [{ ...req.body, isAdmin: false }] *)
Definition register_data (req : Request) : Obj JsValue :=
  set (spread (body req)) "isAdmin" (JBool false).

Definition auth_register : Handler := fun req =>
  try_next (
    validate (body req) userRegisterSchema ;;
    newUser <- call (User_register (JObj (register_data req))) ;;
    token <- lift (createToken newUser) ;;
    ret (res_status_json 201 (JObj [("token", token)]))).

Definition authRoutes : list Route :=
  [ mkRoute POST [Lit "token"] [auth_token];
    mkRoute POST [Lit "register"] [auth_register] ].

End WithEnv.
End Routes.

(* ===================================================================== *)
(** * app.js *)
(* ===================================================================== *)

Module App.
Import Js ExpressError Express Backend Handler Middleware Routes.

Section WithEnv.
Context `{E : Env}.

(** The handlers of a matched route run in order; each one that calls
    [next()] hands over to the following one. *)
Fixpoint run_handlers (hs : list Handler) (req : Request) (w : World)
    : Outcome * World :=
  match hs with
  | [] => (Next, w)
  | h :: rest =>
      match h req w with
      | (Next, w') => run_handlers rest req w'
      | other => other
      end
  end.

Definition route_match (r : Route) (req : Request) : option (Obj string) :=
  if method_eqb (route_method r) (method req)
  then match_path (route_path r) (path req)
  else None.

(** A router tries its routes in the order of registration. *)
Fixpoint run_router (routes : list Route) (req : Request) (w : World)
    : Outcome * World :=
  match routes with
  | [] => (Next, w)
  | r :: rest =>
      match route_match r req with
      | Some ps =>
          match run_handlers (route_handlers r) (with_params req ps) w with
          | (Next, w') => run_router rest req w'
          | other => other
          end
      | None => run_router rest req w
      end
  end.

(** [app.use(prefix, router)] and [app.use(fn)]. *)
Inductive Layer : Type :=
| Mount (prefix : string) (router : list Route)
| Use (h : Handler).

Definition run_layer (l : Layer) (req : Request) (w : World)
    : Outcome * World :=
  match l with
  | Mount prefix router =>
      match path req with
      | seg :: rest =>
          if eqb_ci seg prefix then run_router router (with_path req rest) w
          else (Next, w)
      | [] => (Next, w)
      end
  | Use h => h req w
  end.

Fixpoint run_stack (layers : list Layer) (req : Request) (w : World)
    : Outcome * World :=
  match layers with
  | [] => (Next, w)
  | l :: rest =>
      match run_layer l req w with
      | (Next, w') => run_stack rest req w'
      | other => other
      end
  end.

(** [return next(new NotFoundError())] *)
Definition notFound : Handler :=
  pure_middleware (fun _ => NextErr (NotFoundError NotFound_message)).

(** The generic error handler (the logging apart):
    [const status = err.status || 500; const message = err.message;
     return res.status(status).json({ error: { message, status } })] *)
Definition errorHandler (err : JsError) : Response :=
  let status :=
    match err_status err with
    | Some s => if (s =? 0)%Z then 500%Z else s
    | None => 500%Z
    end in
  let message := err_message err in
  res_status_json status
    (JObj [("error",
            JObj [("message", message); ("status", JNum (int_number status))])]).

Definition layers : list Layer :=
  [ Mount "auth" authRoutes;
    Mount "companies" companiesRoutes;
    Mount "users" usersRoutes;
    Mount "jobs" jobsRoutes;
    Use notFound ].

(** What the client gets from an outcome of the stack: a response sent is
    that response, an error passed to [next] goes to the error handler, and
    [None] stands for a request no layer answered. *)
Definition settle (o : Outcome * World) : option Response * World :=
  match o with
  | (Respond r, w') => (Some r, w')
  | (NextErr err, w') => (Some (errorHandler err), w')
  | (Next, w') => (None, w')
  end.

(** The application on one request: the response and the state afterwards. *)
Definition app (req : Request) (w : World) : option Response * World :=
  settle (run_stack layers req w).

End WithEnv.
End App.

(* ===================================================================== *)
(** * The endpoints, as the statements below refer to them *)
(* ===================================================================== *)

Module Endpoints.
Import Js ExpressError Express Backend Handler Middleware Routes App.

Section WithEnv.
Context `{E : Env}.

(** The request a handler of a matched route receives: the router has cut
    the mount prefix off the path and filled in the parameters. *)
Definition routed (req : Request) (ps : Obj string) : Request :=
  with_params (with_path req (tl (path req))) ps.

(** [req.user] holds a user whose [isAdmin] is truthy. *)
Definition is_admin (req : Request) : bool :=
  match user req with
  | Some u => truthy (or_undefined (get u "isAdmin"))
  | None => false
  end.

(** The [ensureAdmin] that the routes import is the function [g]. *)
Definition imports_ensureAdmin (g : Request -> Outcome) : Prop :=
  forall req, auth_ensureAdmin req = g req.

(** The import is one of the two functions of that name at hand: the one
    of middleware/ensureAdmin.js, or the one the specification describes. *)
Definition known_ensureAdmin (refusal : Request -> Auth.Refusal)
    (message : JsValue) : Prop :=
  imports_ensureAdmin Middleware.ensureAdmin_outcome
  \/ imports_ensureAdmin (Auth.ensureAdmin refusal message).

(** POST, PATCH and DELETE under /companies and /jobs: the route handler
    registered behind [ensureAdmin], and the route parameters.  The paths
    are those the routes match: the mount point in any case, and a
    parameter that is not empty. *)
Definition admin_guarded_endpoint (m : Method) (p : list string)
    : option (Handler * Obj string) :=
  match m, p with
  | POST, [r] =>
      if eqb_ci r "companies" then Some (companies_post, [])
      else if eqb_ci r "jobs" then Some (jobs_post, [])
      else None
  | PATCH, [r; x] =>
      if String.eqb x "" then None
      else if eqb_ci r "companies" then Some (companies_patch, [("handle", x)])
      else if eqb_ci r "jobs" then Some (jobs_patch, [("id", x)])
      else None
  | DELETE, [r; x] =>
      if String.eqb x "" then None
      else if eqb_ci r "companies" then Some (companies_delete, [("handle", x)])
      else if eqb_ci r "jobs" then Some (jobs_delete, [("id", x)])
      else None
  | _, _ => None
  end.

(** The middleware a route registers before its handler. *)
Inductive Guard : Type := NoGuard | AdminGuard | CorrectUserGuard.


(** The guard lets the request through to the handler: the imported
    middleware calls [next()] on the request the router hands it. *)
Definition guard_passes (g : Guard) (req : Request) (ps : Obj string) : Prop :=
  match g with
  | NoGuard => True
  | AdminGuard => auth_ensureAdmin (routed req ps) = Next
  | CorrectUserGuard => ensureCorrectUserOrAdmin (routed req ps) = Next
  end.

(** The routes the four routers register, with their mount prefix, in the
    order of app.js. *)
Definition route_table : list (Method * list Seg) :=
  [ (POST, [Lit "auth"; Lit "token"]);
    (POST, [Lit "auth"; Lit "register"]);
    (POST, [Lit "companies"]);
    (GET, [Lit "companies"]);
    (GET, [Lit "companies"; Par "handle"]);
    (PATCH, [Lit "companies"; Par "handle"]);
    (DELETE, [Lit "companies"; Par "handle"]);
    (POST, [Lit "users"]);
    (GET, [Lit "users"]);
    (GET, [Lit "users"; Par "username"]);
    (PATCH, [Lit "users"; Par "username"]);
    (DELETE, [Lit "users"; Par "username"]);
    (POST, [Lit "users"; Par "username"; Lit "jobs"; Par "id"]);
    (POST, [Lit "jobs"]);
    (GET, [Lit "jobs"]);
    (GET, [Lit "jobs"; Par "id"]);
    (PATCH, [Lit "jobs"; Par "id"]);
    (DELETE, [Lit "jobs"; Par "id"]) ].

(** A table entry matches the request's method and path. *)
Definition entry_matches (req : Request) (entry : Method * list Seg) : bool :=
  method_eqb (fst entry) (method req)
  && match match_path (snd entry) (path req) with
     | Some _ => true
     | None => false
     end.

(** The request's method and path match a registered route. *)
Definition registered (req : Request) : bool :=
  existsb (entry_matches req) route_table.

(** The entries of the route table that a router mounted at [prefix]
    contributes. *)
Definition mounted (prefix : string) (routes : list Route)
    : list (Method * list Seg) :=
  map (fun r => (route_method r, Lit prefix :: route_path r)) routes.

(** The endpoints that create a resource: the guard, the schema, the model
    call, and whether a token is made from its result. *)
Definition creation_endpoint (req : Request)
    : option (Guard * Schema * ModelCall * bool) :=
  match method req, path req with
  | POST, [r] =>
      if eqb_ci r "companies" then
        Some (AdminGuard, companyNewSchema, Company_create (body req), false)
      else if eqb_ci r "jobs" then
        Some (AdminGuard, jobNewSchema, Job_create (body req), false)
      else if eqb_ci r "users" then
        Some (AdminGuard, userNewSchema, User_register (body req), true)
      else None
  | POST, [r; x] =>
      if (eqb_ci r "auth" && eqb_ci x "register")%bool then
        Some (NoGuard, userRegisterSchema,
              User_register (JObj (register_data req)), true)
      else None
  | _, _ => None
  end.

(** The model call returns, and so does [createToken] where one is made. *)
Definition creation_succeeds (c : ModelCall) (token : bool) (w : World) : Prop :=
  exists v, fst (model c (db w)) = Return v
            /\ (token = true -> exists t, createToken v = Return t).



(** The stack passed an error to [next], and [r] is what the centralized
    error handler sent for it. *)
Definition through_error_handler (req : Request) (w : World) (r : Response)
    : Prop :=
  exists err, fst (run_stack layers req w) = NextErr err /\ r = errorHandler err.

(** A layer of the stack sent [r] itself. *)
Definition sent_directly (req : Request) (w : World) (r : Response) : Prop :=
  fst (run_stack layers req w) = Respond r.

(** A response one of the two imported guards sends itself. *)
Definition guard_response (r : Response) : Prop :=
  exists req, auth_ensureAdmin req = Respond r
              \/ ensureCorrectUserOrAdmin req = Respond r.

(** An error one of the two imported guards passes to [next]. *)
Definition guard_error (e : JsError) : Prop :=
  exists req, auth_ensureAdmin req = NextErr e
              \/ ensureCorrectUserOrAdmin req = NextErr e.





(** The status codes the interface names. *)
Definition conventional_codes : list Z := [200; 201; 400; 401; 403; 404; 500]%Z.

Definition conventional (r : Response) : Prop := In (status r) conventional_codes.

(** An error the handler answers with a conventional status: it carries
    one, or none at all. *)
Definition conventional_error (e : JsError) : Prop :=
  conventional (errorHandler e).

(** A string that is no numeric literal for a plain reason: after
    trimming, it starts with a character that is neither a digit, a sign,
    a dot, nor the [I] of [Infinity]. *)
Definition starts_non_numeric (s : string) : bool :=
  match trim s with
  | EmptyString => false
  | String c _ =>
      negb (is_digit c || Ascii.eqb c "+" || Ascii.eqb c "-"
            || Ascii.eqb c "." || Ascii.eqb c "I")
  end.

(** The integers a double holds exactly without a gap: every natural
    number up to 2^53 is the double nearest to itself. *)
Definition exact_integer (n : N) : Prop := (n <= 2 ^ 53)%N.

(** A response that the code outside the sources decides: the error
    handler's answer to an error thrown by a model or by the token helper,
    or passed on by an imported guard, and a response such a guard sends. *)
Definition from_absent_code (r : Response) : Prop :=
  (exists c d e, fst (model c d) = Throw e /\ r = errorHandler e)
  \/ (exists u e, createToken u = Throw e /\ r = errorHandler e)
  \/ (exists e, guard_error e /\ r = errorHandler e)
  \/ guard_response r.

(** What the code outside the sources is taken to do for the status codes
    to be the conventional ones: the models and the token helper throw
    conventional errors only, and the imported guards pass on conventional
    errors and answer, when they do, with a conventional status. *)
Definition models_conventional : Prop :=
  forall c d e, fst (model c d) = Throw e -> conventional_error e.

Definition tokens_conventional : Prop :=
  forall u e, createToken u = Throw e -> conventional_error e.

Definition guard_conventional : Prop :=
  (forall r, guard_response r -> conventional r)
  /\ (forall e, guard_error e -> conventional_error e).

(** The body the error handler sends for an error with this message and
    status. *)
Definition error_body (message : JsValue) (st : Z) : JsValue :=
  JObj [("error", JObj [("message", message); ("status", JNum (int_number st))])].

End WithEnv.
End Endpoints.

(* ===================================================================== *)
(** * Model calls and guards, route by route *)
(* ===================================================================== *)

Module Surface.
Import Js ExpressError Express Backend Handler Middleware Routes App Endpoints.

Section WithEnv.
Context `{E : Env}.

(** The state after the model call [c] has run on [w]. *)
Definition after (c : ModelCall) (w : World) : World :=
  mkWorld (snd (model c (db w))) (calls w ++ [c]).

(** The model calls the routes registered for a method under a mount point
    make: /auth posts authenticate or register; under /companies, /users
    and /jobs a GET finds or gets, a POST creates (registers, applies), a
    PATCH updates and a DELETE removes, each on the model of the mount
    point.  The mount point is the first segment of the path, in whatever
    case the request writes it. *)
Definition call_allowed (m : Method) (prefix : string) (c : ModelCall) : bool :=
  if eqb_ci prefix "auth" then
    match m, c with
    | POST, User_authenticate _ _ | POST, User_register _ => true
    | _, _ => false
    end
  else if eqb_ci prefix "companies" then
    match m, c with
    | POST, Company_create _
    | GET, Company_findAll _ | GET, Company_get _
    | PATCH, Company_update _ _
    | DELETE, Company_remove _ => true
    | _, _ => false
    end
  else if eqb_ci prefix "users" then
    match m, c with
    | POST, User_register _ | POST, User_applyToJob _ _
    | GET, User_findAll | GET, User_get _
    | PATCH, User_update _ _
    | DELETE, User_remove _ => true
    | _, _ => false
    end
  else if eqb_ci prefix "jobs" then
    match m, c with
    | POST, Job_create _
    | GET, Job_findAll _ | GET, Job_get _
    | PATCH, Job_update _ _
    | DELETE, Job_remove _ => true
    | _, _ => false
    end
  else false.

(** The first path segment, which selects the router. *)
Definition mount_point (req : Request) : string := hd "" (path req).

(** The router mounted at a first segment, the empty one when none is. *)
Definition router_at (seg : string) : list Route :=
  if eqb_ci seg "auth" then authRoutes
  else if eqb_ci seg "companies" then companiesRoutes
  else if eqb_ci seg "users" then usersRoutes
  else if eqb_ci seg "jobs" then jobsRoutes
  else [].

Definition with_user (req : Request) (u : option (Obj JsValue)) : Request :=
  mkRequest (method req) (path req) (query req) (body req) u (params req).

(** The endpoints registered without any authorization middleware. *)
Definition public_endpoint (req : Request) : bool :=
  match method req, path req with
  | GET, [r] | GET, [r; _] => String.eqb r "companies" || String.eqb r "jobs"
  | POST, [r; x] =>
      String.eqb r "auth" && (String.eqb x "token" || String.eqb x "register")
  | _, _ => false
  end.



End WithEnv.
End Surface.

(* ===================================================================== *)
(** * Two small concrete environments *)
(* ===================================================================== *)

Module Demo.
Import Js ExpressError Express Backend Handler Middleware Routes App.

(** A database that counts the calls it served.  Reading or removing the
    row named [missing] throws a [NotFoundError]; authenticating throws an
    error without status, as a failing driver would. *)
Definition demo_model (c : ModelCall) (n : nat) : Result JsValue * nat :=
  match c with
  | Company_get h | Company_remove h | Job_get h | Job_remove h
  | User_get h | User_remove h =>
      if String.eqb h "missing"
      then (Throw (NotFoundError (JStr "No such row")), n)
      else (Return (JStr h), S n)
  | User_authenticate _ _ =>
      (Throw (mkError "Error" None (JStr "connect ECONNREFUSED 127.0.0.1:5432")), n)
  | _ => (Return (JStr "row"), S n)
  end.

(** Every schema accepts objects and nothing else. *)
Definition demo_validate (data : JsValue) (_ : Schema) : ValidatorResult :=
  match data with
  | JObj _ => mkValidatorResult true []
  | _ => mkValidatorResult false
           [mkValidationError "instance is not of a type(s) object"]
  end.

Definition demo_guard (req : Request) : Outcome :=
  match user req with
  | Some _ => Next
  | None => NextErr (UnauthorizedError (JStr "Unauthorized"))
  end.

Definition demo_number_to_string (n : JsNumber) : string :=
  match n with
  | Finite false m 0 => NilEmpty.string_of_uint (N.to_uint m)
  | _ => "NaN"
  end.

(** In this environment the routes' [ensureAdmin] is the one of
    middleware/ensureAdmin.js. *)
Definition demo : Env := {|
  DB := nat;
  model := demo_model;
  jsonschema_validate := demo_validate;
  createToken := fun _ => Return (JStr "token");
  auth_ensureAdmin := ensureAdmin_outcome;
  ensureCorrectUserOrAdmin := demo_guard;
  NumberToString := demo_number_to_string;
  NotFound_message := JStr "Not Found"
|}.

(** 401 for a request without a user, 403 for a user who is no admin. *)
Definition demo_refusal (req : Request) : Auth.Refusal :=
  match user req with
  | None => Auth.Unauthorized
  | Some _ => Auth.Forbidden
  end.

(** In this one it is the [ensureAdmin] of the specification. *)
Definition by_spec : Env := {|
  DB := nat;
  model := demo_model;
  jsonschema_validate := demo_validate;
  createToken := fun _ => Return (JStr "token");
  auth_ensureAdmin := Auth.ensureAdmin demo_refusal (JStr "Unauthorized");
  ensureCorrectUserOrAdmin := demo_guard;
  NumberToString := demo_number_to_string;
  NotFound_message := JStr "Not Found"
|}.

Definition start : World := mkWorld (0 : @DB demo) [].

Definition start_by_spec : World := mkWorld (0 : @DB by_spec) [].

Definition request (m : Method) (p : list string) (b : JsValue)
    (u : option (Obj JsValue)) : Request :=
  mkRequest m p [] b u [].

Definition admin : Obj JsValue :=
  [("username", JStr "root"); ("isAdmin", JBool true)].

Definition plain_user : Obj JsValue :=
  [("username", JStr "u1"); ("isAdmin", JBool false)].

End Demo.

(* ===================================================================== *)
(** * The specification's wording, for comparison with the code *)
(* ===================================================================== *)

Module Worded.
Import Js ExpressError Sql.




(** The column of the amended wording: the mapping of the key when
    [jsToSql] has one of its own that is not the empty string (an empty one
    gives the key); without a mapping of its own, the text of the member
    of that name that objects inherit, when there is one; otherwise the
    key. *)
Definition column_if_truthy (jsToSql : Obj string) (k : string) : string :=
  match get jsToSql k with
  | Some c => if String.eqb c "" then k else c
  | None =>
      match Object_prototype k with
      | Some text => text
      | None => k
      end
  end.

End Worded.

Import Js ExpressError Sql.

(* ===================================================================== *)
(** * Properties of objects and of [Object.keys] *)
(* ===================================================================== *)

Section ObjectFacts.
Context {V : Type}.
Implicit Types (o : Obj V) (k : string) (v : V).

Lemma insert_by_index_perm i (p : string * V) l :
  Permutation (insert_by_index i p l) ((i, p) :: l).
Proof.
  induction l as [|[j q] l IH]; simpl.
  - apply Permutation_refl.
  - destruct (i <=? j)%N.
    + apply Permutation_refl.
    + eapply Permutation_trans; [apply perm_skip, IH | apply perm_swap].
Qed.

Lemma index_props_perm o :
  Permutation (map snd (index_props o))
              (filter (fun p => is_array_index (fst p)) o).
Proof.
  induction o as [|p o IH]; simpl.
  - constructor.
  - unfold is_array_index. destruct (array_index (fst p)) as [i|]; simpl.
    + eapply Permutation_trans.
      * apply Permutation_map, insert_by_index_perm.
      * simpl. apply perm_skip, IH.
    + exact IH.
Qed.

Lemma filter_split_perm (f : string * V -> bool) o :
  Permutation (filter f o ++ filter (fun p => negb (f p)) o) o.
Proof.
  induction o as [|p o IH]; simpl.
  - constructor.
  - destruct (f p); simpl.
    + apply perm_skip, IH.
    + eapply Permutation_trans; [|apply perm_skip, IH].
      apply Permutation_sym, Permutation_middle.
Qed.

(** [Object.keys] and [Object.values] enumerate exactly the properties of
    the object. *)
Lemma own_props_perm o : Permutation (own_props o) o.
Proof.
  unfold own_props, named_props.
  eapply Permutation_trans; [|apply (filter_split_perm (fun p => is_array_index (fst p)))].
  apply Permutation_app_tail, index_props_perm.
Qed.

Lemma own_props_length o : length (own_props o) = length o.
Proof. apply Permutation_length, own_props_perm. Qed.

Lemma Object_keys_perm o : Permutation (Object_keys o) (map fst o).
Proof. apply Permutation_map, own_props_perm. Qed.

Lemma Object_keys_nil o : Object_keys o = [] <-> o = [].
Proof.
  split; intros H.
  - apply length_zero_iff_nil. rewrite <- own_props_length.
    unfold Object_keys in H. apply (f_equal (@length _)) in H.
    rewrite length_map in H. exact H.
  - subst o. reflexivity.
Qed.




Lemma own_props_wf o : wf_obj o -> wf_obj (own_props o).
Proof.
  unfold wf_obj. intros H.
  eapply Permutation_NoDup; [|exact H].
  apply Permutation_sym, Permutation_map, own_props_perm.
Qed.

Lemma get_In o k v : wf_obj o -> (get o k = Some v <-> In (k, v) o).
Proof.
  unfold wf_obj. induction o as [|[k' v'] o IH]; simpl; intros Hnd.
  - split; [discriminate | intros []].
  - inversion Hnd as [|? ? Hnotin Hnd']; subst.
    destruct (String.eqb_spec k' k) as [->|Hne].
    + split.
      * intros [= ->]. left. reflexivity.
      * intros [[= ->]|Hin]; [reflexivity|].
        exfalso. apply Hnotin. apply (in_map fst) in Hin. exact Hin.
    + rewrite (IH Hnd'). split.
      * intros Hin. right. exact Hin.
      * intros [[= -> _]|Hin]; [contradiction | exact Hin].
Qed.


End ObjectFacts.




Import Worded.

(* ===================================================================== *)
(** * helpers/sql.js: what [sqlForPartialUpdate] returns *)
(* ===================================================================== *)

(** What [jsToSql[k] || k] reads, case by case. *)
Lemma or_member_lookup (jsToSql : Obj string) (k : string) :
  or_member (lookup jsToSql k) k = column_if_truthy jsToSql k.
Proof.
  unfold column_if_truthy, or_member, lookup.
  destruct (get jsToSql k) as [c|].
  - simpl. destruct (String.eqb c ""); reflexivity.
  - destruct (Object_prototype k); reflexivity.
Qed.






(** C2.  [sqlForPartialUpdate] throws exactly when [dataToUpdate] has no
    keys, what it throws is a [BadRequestError], and with at least one key
    it returns, whatever [jsToSql] is. *)
Theorem sqlForPartialUpdate_throws_iff_no_keys {V} (dataToUpdate : Obj V)
    (jsToSql : Obj string) :
  ((exists e, sqlForPartialUpdate dataToUpdate jsToSql = Throw e)
     <-> Object_keys dataToUpdate = [])
  /\ (forall e, sqlForPartialUpdate dataToUpdate jsToSql = Throw e ->
        e = BadRequestError (JStr "No data"))
  /\ ((exists r, sqlForPartialUpdate dataToUpdate jsToSql = Return r)
        <-> Object_keys dataToUpdate <> [])
  /\ (Object_keys dataToUpdate = [] <-> dataToUpdate = []).
Proof.
  unfold sqlForPartialUpdate.
  destruct (Nat.eqb_spec (length (Object_keys dataToUpdate)) 0) as [H0|H0].
  - apply length_zero_iff_nil in H0. repeat split.
    + intros _. exact H0.
    + intros _. eexists. reflexivity.
    + intros e [= <-]. reflexivity.
    + intros [r Hr]. discriminate.
    + intros H. contradiction.
    + intros _. apply Object_keys_nil. exact H0.
    + intros ->. reflexivity.
  - assert (Hne : Object_keys dataToUpdate <> [])
      by (intros H; rewrite H in H0; apply H0; reflexivity).
    repeat split.
    + intros [e He]. discriminate.
    + intros H. contradiction.
    + intros e He. discriminate.
    + intros _. exact Hne.
    + intros _. eexists. reflexivity.
    + apply Object_keys_nil.
    + intros ->. reflexivity.
Qed.

(* ===================================================================== *)
(** * Comparing path segments *)
(* ===================================================================== *)

Lemma eqb_ci_upper (a b : string) : eqb_ci a b = true <-> upper a = upper b.
Proof. unfold eqb_ci. apply String.eqb_eq. Qed.

Lemma eqb_ci_refl (a : string) : eqb_ci a a = true.
Proof. apply eqb_ci_upper. reflexivity. Qed.

Lemma eqb_ci_sym (a b : string) : eqb_ci a b = eqb_ci b a.
Proof. unfold eqb_ci. apply String.eqb_sym. Qed.

(** Two segments that compare equal compare alike with any third. *)
Lemma eqb_ci_congr (a b c : string) :
  eqb_ci a b = true -> eqb_ci a c = eqb_ci b c.
Proof.
  intros H. apply eqb_ci_upper in H. unfold eqb_ci. rewrite H. reflexivity.
Qed.

(** Capitals and small letters match, and nothing else does. *)
Example eqb_ci_letters :
  eqb_ci "JOBS" "jobs" = true /\ eqb_ci "Jobs" "jobs" = true
  /\ eqb_ci "j0bs" "jobs" = false /\ eqb_ci "jobs " "jobs" = false
  /\ eqb_ci "[" "{" = false /\ eqb_ci "@" "`" = false.
Proof. repeat split. Qed.

Lemma eqb_neq_false (x y : string) : x <> y -> String.eqb x y = false.
Proof. apply String.eqb_neq. Qed.

(** Decides the comparisons between literals. *)
Ltac ci_compute :=
  repeat match goal with
    | |- context [eqb_ci ?a ?b] =>
        let v := eval vm_compute in (eqb_ci a b) in
        match v with
        | true => change (eqb_ci a b) with true
        | false => change (eqb_ci a b) with false
        end
    end.

(* ===================================================================== *)
(** * Dispatch: what holds of every handler holds of the application *)
(* ===================================================================== *)

Import Express Backend Handler Middleware Routes App Endpoints Surface.
Local Open Scope handler_scope.

Section Dispatch.
Context `{E : Env}.

(** [Q] is to hold of every response sent, [P] of every error passed on. *)
Variables (Q : Response -> Prop) (P : JsError -> Prop).

Definition outcome_sat (o : Outcome) : Prop :=
  match o with
  | Respond r => Q r
  | NextErr e => P e
  | Next => True
  end.

Definition handler_sat (h : Handler) : Prop :=
  forall req w, outcome_sat (fst (h req w)).

Definition result_sat {A} (QA : A -> Prop) (r : Result A) : Prop :=
  match r with
  | Return a => QA a
  | Throw e => P e
  end.

Definition comp_sat {A} (QA : A -> Prop) (m : M A) : Prop :=
  forall w, result_sat QA (fst (m w)).

Lemma ret_sat {A} (QA : A -> Prop) (a : A) : QA a -> comp_sat QA (ret a).
Proof. intros H w. exact H. Qed.

Lemma throw_sat {A} (QA : A -> Prop) (e : JsError) :
  P e -> comp_sat QA (throw e).
Proof. intros H w. exact H. Qed.

Lemma lift_sat {A} (QA : A -> Prop) (r : Result A) :
  result_sat QA r -> comp_sat QA (lift r).
Proof. intros H w. exact H. Qed.

Lemma bind_sat {A B} (QA : A -> Prop) (QB : B -> Prop) (m : M A)
    (k : A -> M B) :
  comp_sat QA m -> (forall a, QA a -> comp_sat QB (k a)) ->
  comp_sat QB (bind m k).
Proof.
  intros Hm Hk w. unfold bind. specialize (Hm w).
  destruct (m w) as [[a|e] w']; simpl in *.
  - apply Hk. exact Hm.
  - exact Hm.
Qed.

Lemma call_sat (c : ModelCall) :
  (forall d, result_sat (fun _ => True) (fst (model c d))) ->
  comp_sat (fun _ => True) (call c).
Proof.
  intros H w. unfold call. specialize (H (db w)).
  destruct (model c (db w)) as [r d']. exact H.
Qed.

Lemma validate_sat (data : JsValue) (schema : Schema) :
  (forall msg, P (BadRequestError msg)) ->
  comp_sat (fun _ => True) (validate data schema).
Proof.
  intros H w. unfold validate.
  destruct (valid (jsonschema_validate data schema)); simpl.
  - exact I.
  - apply H.
Qed.

Lemma try_next_sat (m : M Response) :
  comp_sat Q m -> forall w, outcome_sat (fst (try_next m w)).
Proof.
  intros H w. unfold try_next. specialize (H w).
  destruct (m w) as [[r|e] w']; exact H.
Qed.

Lemma run_handlers_sat (hs : list Handler) :
  Forall handler_sat hs ->
  forall req w, outcome_sat (fst (run_handlers hs req w)).
Proof.
  induction hs as [|h hs IH]; intros Hall req w; simpl.
  - exact I.
  - inversion Hall as [|? ? Hh Hhs]; subst.
    specialize (Hh req w).
    destruct (h req w) as [[|e|r] w']; simpl in *.
    + apply IH. exact Hhs.
    + exact Hh.
    + exact Hh.
Qed.

Definition route_sat (r : Route) : Prop := Forall handler_sat (route_handlers r).

Lemma run_router_sat (routes : list Route) :
  Forall route_sat routes ->
  forall req w, outcome_sat (fst (run_router routes req w)).
Proof.
  induction routes as [|r routes IH]; intros Hall req w; simpl.
  - exact I.
  - inversion Hall as [|? ? Hr Hrs]; subst.
    destruct (route_match r req) as [ps|].
    + pose proof (run_handlers_sat _ Hr (with_params req ps) w) as H.
      destruct (run_handlers (route_handlers r) (with_params req ps) w)
        as [[|e|resp] w']; simpl in *.
      * apply IH. exact Hrs.
      * exact H.
      * exact H.
    + apply IH. exact Hrs.
Qed.

Definition layer_sat (l : Layer) : Prop :=
  match l with
  | Mount _ router => Forall route_sat router
  | Use h => handler_sat h
  end.

Lemma run_layer_sat (l : Layer) :
  layer_sat l -> forall req w, outcome_sat (fst (run_layer l req w)).
Proof.
  intros Hl req w. destruct l as [prefix router|h]; simpl in *.
  - destruct (path req) as [|seg rest]; [exact I|].
    destruct (eqb_ci seg prefix); [|exact I].
    apply run_router_sat. exact Hl.
  - apply Hl.
Qed.

Lemma run_stack_sat (ls : list Layer) :
  Forall layer_sat ls ->
  forall req w, outcome_sat (fst (run_stack ls req w)).
Proof.
  induction ls as [|l ls IH]; intros Hall req w; simpl.
  - exact I.
  - inversion Hall as [|? ? Hl Hls]; subst.
    pose proof (run_layer_sat l Hl req w) as H.
    destruct (run_layer l req w) as [[|e|resp] w']; simpl in *.
    + apply IH. exact Hls.
    + exact H.
    + exact H.
Qed.

End Dispatch.

(** The stack ends with the catch-all, which passes an error on: no request
    is left unanswered. *)
Lemma run_stack_not_Next `{E : Env} (ls : list Layer) (req : Request) (w : World) :
  fst (run_stack (ls ++ [Use notFound]) req w) <> Next.
Proof.
  revert w. induction ls as [|l ls IH]; intros w; simpl.
  - discriminate.
  - destruct (run_layer l req w) as [[|e|r] w']; simpl.
    + apply IH.
    + discriminate.
    + discriminate.
Qed.

Lemma app_responds `{E : Env} (req : Request) (w : World) :
  exists r, fst (app req w) = Some r.
Proof.
  unfold app.
  pose proof (run_stack_not_Next
                [Mount "auth" authRoutes; Mount "companies" companiesRoutes;
                 Mount "users" usersRoutes; Mount "jobs" jobsRoutes] req w) as H.
  change (fst (run_stack layers req w) <> Next) in H.
  destruct (run_stack layers req w) as [[|e|r] w']; simpl in *.
  - contradiction.
  - eexists. reflexivity.
  - eexists. reflexivity.
Qed.

(* ===================================================================== *)
(** * Routing *)
(* ===================================================================== *)

Lemma router_at_ci `{E : Env} (seg p : string) :
  eqb_ci seg p = true -> router_at seg = router_at p.
Proof.
  intros H. unfold router_at.
  rewrite !(eqb_ci_congr seg p) by exact H. reflexivity.
Qed.

(** The stack as one step: the router mounted at the first segment runs
    on the rest of the path, and what it leaves goes to the catch-all. *)
Lemma run_stack_layers `{E : Env} (req : Request) (w : World) :
  run_stack layers req w
  = match run_router (router_at (mount_point req))
            (with_path req (tl (path req))) w with
    | (Next, w') => notFound req w'
    | other => other
    end.
Proof.
  unfold layers, mount_point, router_at. cbn [run_stack run_layer].
  destruct (path req) as [|seg rest]; cbn [hd tl].
  - ci_compute. reflexivity.
  - destruct (eqb_ci seg "auth") eqn:Ha.
    { rewrite !(eqb_ci_congr seg "auth") by exact Ha. ci_compute.
      destruct (run_router authRoutes (with_path req rest) w) as [[|e|r] w'];
        reflexivity. }
    destruct (eqb_ci seg "companies") eqn:Hc.
    { rewrite !(eqb_ci_congr seg "companies") by exact Hc. ci_compute.
      destruct (run_router companiesRoutes (with_path req rest) w)
        as [[|e|r] w']; reflexivity. }
    destruct (eqb_ci seg "users") eqn:Hu.
    { rewrite !(eqb_ci_congr seg "users") by exact Hu. ci_compute.
      destruct (run_router usersRoutes (with_path req rest) w)
        as [[|e|r] w']; reflexivity. }
    destruct (eqb_ci seg "jobs") eqn:Hj.
    { destruct (run_router jobsRoutes (with_path req rest) w)
        as [[|e|r] w']; reflexivity. }
    reflexivity.
Qed.

(** Runs the dispatch (routers, path matching) and nothing else: string
    comparisons and handlers stay as they are. *)
Ltac dispatch_cbn :=
  cbn [run_router run_handlers route_match match_path method_eqb
       settle existsb andb orb fst snd path method params route_method
       route_path route_handlers with_path with_params notFound
       pure_middleware mount_point hd tl] in *.

(** Rewrites with the comparisons decided in the context. *)
Ltac rewrite_eqb :=
  repeat match goal with
    | H : eqb_ci _ _ = _ |- _ => rewrite H
    | H : String.eqb _ _ = _ |- _ => rewrite H
    | H : eqb_ci ?x ?l = true |- context [eqb_ci ?x ?c] =>
        rewrite (eqb_ci_congr x l c H); ci_compute
    end.

(** Reads the fields of a request written out. *)
Ltac request_cbn :=
  unfold param, routed in *;
  cbn [with_params with_path method path query body user params tl hd] in *.

(** Enters the router of the request's first segment, which is a literal
    or known from a hypothesis to be a mount point, and runs the router
    up to the handlers of the matching route. *)
Ltac enter_router :=
  unfold app; rewrite run_stack_layers; cbn [mount_point path hd tl];
  try match goal with
    | H : eqb_ci ?r _ = true |- context [router_at ?r] =>
        rewrite (router_at_ci r _ H)
    end;
  unfold router_at; ci_compute; cbv iota;
  unfold authRoutes, companiesRoutes, usersRoutes, jobsRoutes,
    Routes.ensureAdmin, correctUserOrAdmin;
  request_cbn; dispatch_cbn; rewrite_eqb; ci_compute; dispatch_cbn;
  request_cbn.

(** Splits on the comparisons of a segment with the mount points. *)
Ltac mount_cases H :=
  repeat match type of H with
    | context [eqb_ci ?a ?c] =>
        let Hci := fresh "Hci" in
        destruct (eqb_ci a c) eqn:Hci; cbn [andb orb] in H
    | context [String.eqb ?a ""] =>
        let Hne := fresh "Hne" in
        destruct (String.eqb a "") eqn:Hne
    end.

(* ===================================================================== *)
(** * The admin guard *)
(* ===================================================================== *)

Lemma is_admin_not_admin (req : Request) : not_admin req = negb (is_admin req).
Proof. unfold not_admin, is_admin. destruct (user req); reflexivity. Qed.

(** Behind the imported [ensureAdmin] the route handler runs when the
    guard calls [next()], and not otherwise: what the guard sends or passes
    on is then the outcome, and the state is as it was. *)
Lemma admin_guarded_app `{E : Env} (req : Request) (w : World) (h : Handler)
    (ps : Obj string) :
  admin_guarded_endpoint (method req) (path req) = Some (h, ps) ->
  app req w
  = match auth_ensureAdmin (routed req ps) with
    | Next => settle (h (routed req ps) w)
    | other => settle (other, w)
    end.
Proof.
  intros Hep. destruct req as [m p q b u ps0]; simpl in Hep.
  destruct m; try discriminate;
    destruct p as [|r [|x [|y p]]]; try discriminate;
    unfold admin_guarded_endpoint in Hep;
    mount_cases Hep; try discriminate;
    injection Hep as <- <-;
    enter_router;
    (destruct (auth_ensureAdmin _); cbn [settle]; try reflexivity);
    unfold companies_post, companies_patch, companies_delete,
      jobs_post, jobs_patch, jobs_delete, try_next; simpl;
    match goal with
    | |- context [bind ?m ?k w] =>
        destruct (bind m k w) as [[?|?] ?]; reflexivity
    end.
Qed.

Lemma run_handlers_guard `{E : Env} (g : Request -> Outcome)
    (hs : list Handler) (req : Request) (w : World) :
  run_handlers (pure_middleware g :: hs) req w
  = match g req with
    | Next => run_handlers hs req w
    | other => (other, w)
    end.
Proof. simpl. unfold pure_middleware. destruct (g req); reflexivity. Qed.

(** Either known [ensureAdmin] calls [next()] for an admin and for nobody
    else; what it does instead ends in a response with status 401 or 403:
    the 403 that middleware/ensureAdmin.js sends, or the error handler's
    answer to the error of the specification. *)
Lemma known_guard_cases `{E : Env} (refusal : Request -> Auth.Refusal)
    (message : JsValue) (req : Request) :
  known_ensureAdmin refusal message ->
  exists o r,
    o <> Next
    /\ (forall w : World, settle (o, w) = (Some r, w))
    /\ (status r = 401%Z \/ status r = 403%Z)
    /\ auth_ensureAdmin req = if is_admin req then Next else o.
Proof.
  intros [Hk|Hk].
  - exists (Respond admin_required_response), admin_required_response.
    split; [discriminate|]. split; [reflexivity|]. split; [right; reflexivity|].
    rewrite Hk. unfold ensureAdmin_outcome. rewrite is_admin_not_admin.
    destruct (is_admin req); reflexivity.
  - exists (NextErr (Auth.refusal_error (refusal req) message)),
           (errorHandler (Auth.refusal_error (refusal req) message)).
    split; [discriminate|]. split; [reflexivity|].
    split; [destruct (refusal req); [left|right]; reflexivity|].
    rewrite Hk. unfold Auth.ensureAdmin. rewrite is_admin_not_admin.
    destruct (is_admin req); reflexivity.
Qed.

(** C5.  At an admin-guarded endpoint (POST, PATCH, DELETE under /companies
    and /jobs), the [ensureAdmin] that the routes import being the one of
    middleware/ensureAdmin.js or the one the specification describes: when
    the user is absent or not an admin, the response is an authorization
    failure with status 401 or 403, whatever handler is registered behind
    the guard, and no model call is made (the state is unchanged); when the
    user is an admin, [ensureAdmin] calls [next()] and the response is the
    route handler's. *)
Theorem ensureAdmin_guards `{E : Env} (refusal : Request -> Auth.Refusal)
    (message : JsValue) (req : Request) (w : World) (h : Handler)
    (ps : Obj string) :
  known_ensureAdmin refusal message ->
  admin_guarded_endpoint (method req) (path req) = Some (h, ps) ->
  ((user req = None
    \/ exists u, user req = Some u
                 /\ truthy (or_undefined (get u "isAdmin")) = false) ->
     exists r,
       app req w = (Some r, w)
       /\ (status r = 401%Z \/ status r = 403%Z)
       /\ calls (snd (app req w)) = calls w
       /\ exists o, o <> Next
                    /\ forall h', run_handlers [Routes.ensureAdmin; h']
                                    (routed req ps) w = (o, w))
  /\ ((exists u, user req = Some u
                 /\ truthy (or_undefined (get u "isAdmin")) = true) ->
      Routes.ensureAdmin (routed req ps) w = (Next, w)
      /\ app req w = settle (h (routed req ps) w)).
Proof.
  intros Hknown Hep.
  pose proof (admin_guarded_app req w h ps Hep) as Happ.
  destruct (known_guard_cases refusal message (routed req ps) Hknown)
    as (o & r & Ho & Hsettle & Hst & Hguard).
  change (is_admin (routed req ps)) with (is_admin req) in Hguard.
  split.
  - intros Hno.
    assert (Hf : is_admin req = false).
    { unfold is_admin. destruct Hno as [->|(u & -> & Hu)]; [reflexivity|exact Hu]. }
    rewrite Hf in Hguard. rewrite Hguard in Happ.
    assert (Happ' : app req w = (Some r, w)).
    { rewrite Happ, <- (Hsettle w). destruct o; [contradiction | |]; reflexivity. }
    exists r. rewrite Happ'. repeat split; try assumption.
    exists o. split; [exact Ho|].
    intros h'. unfold Routes.ensureAdmin.
    rewrite run_handlers_guard, Hguard.
    destruct o; [contradiction | |]; reflexivity.
  - intros (u & Hu & Htrue).
    assert (Ht : is_admin req = true).
    { unfold is_admin. rewrite Hu. exact Htrue. }
    rewrite Ht in Hguard. rewrite Hguard in Happ.
    split; [|exact Happ].
    unfold Routes.ensureAdmin, pure_middleware. rewrite Hguard. reflexivity.
Qed.

(** C5 at POST /jobs in the two small environments.  Without a user: the
    403 of middleware/ensureAdmin.js in the one, the 401 of the error
    handler in the other, and an untouched state in both.  With an admin:
    the response of [jobs_post]. *)
Lemma ensureAdmin_guards_witness :
  (exists r,
     @app Demo.demo (Demo.request POST ["JOBS"] JNull None) Demo.start
       = (Some r, Demo.start)
     /\ (status r = 401%Z \/ status r = 403%Z))
  /\ (exists r,
        @app Demo.by_spec (Demo.request POST ["jobs"] JNull None)
             Demo.start_by_spec
          = (Some r, Demo.start_by_spec)
        /\ (status r = 401%Z \/ status r = 403%Z))
  /\ @app Demo.by_spec (Demo.request POST ["jobs"] (JObj []) (Some Demo.admin))
          Demo.start_by_spec
     = settle (@jobs_post Demo.by_spec
                 (routed (Demo.request POST ["jobs"] (JObj []) (Some Demo.admin)) [])
                 Demo.start_by_spec).
Proof.
  split; [|split].
  - destruct (proj1 (@ensureAdmin_guards Demo.demo Demo.demo_refusal
                       (JStr "Unauthorized")
                       (Demo.request POST ["JOBS"] JNull None) Demo.start
                       jobs_post []
                       (or_introl (fun _ => eq_refl)) eq_refl)
                    (or_introl eq_refl))
      as (r & Hr & Hst & _).
    exists r. split; assumption.
  - destruct (proj1 (@ensureAdmin_guards Demo.by_spec Demo.demo_refusal
                       (JStr "Unauthorized")
                       (Demo.request POST ["jobs"] JNull None)
                       Demo.start_by_spec jobs_post []
                       (or_intror (fun _ => eq_refl)) eq_refl)
                    (or_introl eq_refl))
      as (r & Hr & Hst & _).
    exists r. split; assumption.
  - apply (proj2 (@ensureAdmin_guards Demo.by_spec Demo.demo_refusal
                    (JStr "Unauthorized")
                    (Demo.request POST ["jobs"] (JObj []) (Some Demo.admin))
                    Demo.start_by_spec jobs_post []
                    (or_intror (fun _ => eq_refl)) eq_refl)).
    exists Demo.admin. split; reflexivity.
Defined.

(* ===================================================================== *)
(** * Validation *)
(* ===================================================================== *)



(** The guard comes first: the same [null] posted without a user never
    reaches the validation and gets the guard's answer, here the 401 of
    the specification's [ensureAdmin]. *)
Example guard_precedes_validation :
  @app Demo.by_spec (Demo.request POST ["jobs"] JNull None) Demo.start_by_spec
  = (Some (errorHandler (UnauthorizedError (JStr "Unauthorized"))),
     Demo.start_by_spec).
Proof. reflexivity. Qed.

(* ===================================================================== *)
(** * Every response of the application *)
(* ===================================================================== *)

Section AppSat.
Context `{E : Env}.
Variables (Q : Response -> Prop) (P : JsError -> Prop).

Hypothesis Q_json : forall v, Q (res_json v).
Hypothesis Q_created : forall v, Q (res_status_json 201 v).
Hypothesis P_bad_request : forall msg, P (BadRequestError msg).
Hypothesis P_not_found : P (NotFoundError NotFound_message).
Hypothesis P_no_status : forall e, err_status e = None -> P e.
Hypothesis P_model : forall c d e, fst (model c d) = Throw e -> P e.
Hypothesis P_token : forall u e, createToken u = Throw e -> P e.
Hypothesis admin_guard_ok : forall req, outcome_sat Q P (auth_ensureAdmin req).
Hypothesis guard_ok : forall req, outcome_sat Q P (ensureCorrectUserOrAdmin req).

Lemma call_ok (c : ModelCall) : comp_sat P (fun _ => True) (call c).
Proof.
  apply call_sat. intros d. destruct (fst (model c d)) eqn:H; simpl.
  - exact I.
  - eapply P_model. exact H.
Qed.

Lemma token_ok (u : JsValue) : comp_sat P (fun _ => True) (lift (createToken u)).
Proof.
  apply lift_sat. destruct (createToken u) eqn:H; simpl.
  - exact I.
  - eapply P_token. exact H.
Qed.

Lemma destructure_ok (v : JsValue) (k : string) :
  comp_sat P (fun _ => True) (lift (destructure v k)).
Proof.
  apply lift_sat. destruct v; simpl; try exact I; apply P_no_status; reflexivity.
Qed.

Lemma validate_ok (data : JsValue) (schema : Schema) :
  comp_sat P (fun _ => True) (validate data schema).
Proof. apply validate_sat. exact P_bad_request. Qed.

(** Steps through a handler body: each statement either throws an error
    satisfying [P] or goes on, and the response at the end satisfies [Q]. *)
Ltac handler_ok :=
  intros req w; apply try_next_sat;
  repeat first
    [ apply ret_sat; first [apply Q_json | apply Q_created]
    | eapply bind_sat;
      [ first [apply validate_ok | apply call_ok | apply token_ok
              | apply destructure_ok]
      | intros ? _ ] ].

Lemma ensureAdmin_ok : handler_sat Q P Routes.ensureAdmin.
Proof. intros req w. apply admin_guard_ok. Qed.

Lemma correctUserOrAdmin_ok : handler_sat Q P correctUserOrAdmin.
Proof. intros req w. apply guard_ok. Qed.

Lemma notFound_ok : handler_sat Q P notFound.
Proof. intros req w. exact P_not_found. Qed.

Lemma jobsRoutes_ok : Forall (route_sat Q P) jobsRoutes.
Proof.
  repeat constructor; try apply ensureAdmin_ok; handler_ok.
Qed.

Lemma companiesRoutes_ok : Forall (route_sat Q P) companiesRoutes.
Proof.
  repeat constructor; try apply ensureAdmin_ok; handler_ok.
Qed.

Lemma usersRoutes_ok : Forall (route_sat Q P) usersRoutes.
Proof.
  repeat constructor;
    try apply ensureAdmin_ok; try apply correctUserOrAdmin_ok; handler_ok.
Qed.

Lemma authRoutes_ok : Forall (route_sat Q P) authRoutes.
Proof. repeat constructor; handler_ok. Qed.

(** Whatever the request: a response sent by a layer satisfies [Q], and an
    error passed to the error handler satisfies [P]. *)
Lemma stack_sat (req : Request) (w : World) :
  outcome_sat Q P (fst (run_stack layers req w)).
Proof.
  apply run_stack_sat. unfold layers.
  constructor; [exact authRoutes_ok|].
  constructor; [exact companiesRoutes_ok|].
  constructor; [exact usersRoutes_ok|].
  constructor; [exact jobsRoutes_ok|].
  constructor; [exact notFound_ok | constructor].
Qed.

Lemma app_sat (req : Request) (w : World) :
  exists r, fst (app req w) = Some r
            /\ (Q r \/ exists err, P err /\ r = errorHandler err).
Proof.
  pose proof (stack_sat req w) as H.
  destruct (app_responds req w) as [r Hr]. exists r. split; [exact Hr|].
  unfold app in Hr.
  destruct (run_stack layers req w) as [[|e|r'] w']; simpl in *.
  - discriminate.
  - injection Hr as <-. right. exists e. split; [exact H | reflexivity].
  - injection Hr as <-. left. exact H.
Qed.

End AppSat.

(* ===================================================================== *)
(** * Who sends the error responses *)
(* ===================================================================== *)








(* ===================================================================== *)
(** * The error handler *)
(* ===================================================================== *)

(** C4 (as amended).  For every error reaching the error handler with no
    status of its own, the response has status 500 and the body
    [{ error: { message, status: 500 } }] in which [message] is the
    error's own message. *)
Theorem errorHandler_no_status (err : JsError) :
  err_status err = None ->
  errorHandler err = res_status_json 500 (error_body (err_message err) 500).
Proof.
  intros H. unfold errorHandler. rewrite H. reflexivity.
Qed.

(** The amended C4 on a driver error, and on the application: the error
    that [User.authenticate] throws in the small environment. *)
Lemma errorHandler_no_status_witness :
  errorHandler (mkError "Error" None (JStr "connect ECONNREFUSED 127.0.0.1:5432"))
  = res_status_json 500
      (error_body (JStr "connect ECONNREFUSED 127.0.0.1:5432") 500)
  /\ fst (@app Demo.demo (Demo.request POST ["auth"; "token"] (JObj []) None)
               Demo.start)
     = Some (res_status_json 500
               (error_body (JStr "connect ECONNREFUSED 127.0.0.1:5432") 500)).
Proof.
  split.
  - apply (errorHandler_no_status
             (mkError "Error" None (JStr "connect ECONNREFUSED 127.0.0.1:5432"))).
    reflexivity.
  - reflexivity.
Defined.

(** C4 as worded fails on the code: the message in the body is not a
    generic one.  Two errors without status that differ in their message
    get different bodies, each carrying the error's own message. *)
Lemma errorHandler_message_not_generic :
  exists e1 e2,
    err_status e1 = None /\ err_status e2 = None
    /\ status (errorHandler e1) = 500%Z
    /\ json (errorHandler e1) <> json (errorHandler e2)
    /\ json (errorHandler e1) = error_body (err_message e1) 500.
Proof.
  exists (mkError "Error" None (JStr "connect ECONNREFUSED 127.0.0.1:5432")),
         (mkError "Error" None (JStr "relation users does not exist")).
  repeat split; try reflexivity. discriminate.
Qed.

(* ===================================================================== *)
(** * Status codes *)
(* ===================================================================== *)

(** A request that matches no registered route falls through the four
    routers to the catch-all, whose [NotFoundError] the error handler
    answers; the state is unchanged. *)
Lemma run_router_unmatched `{E : Env} (routes : list Route) (req : Request)
    (w : World) :
  (forall r, In r routes -> route_match r req = None) ->
  run_router routes req w = (Next, w).
Proof.
  induction routes as [|r routes IH]; intros H; simpl.
  - reflexivity.
  - rewrite (H r) by (left; reflexivity).
    apply IH. intros r' Hr'. apply H. right. exact Hr'.
Qed.

Lemma mount_unmatched `{E : Env} (prefix : string) (routes : list Route)
    (req : Request) (w : World) :
  existsb (entry_matches req) (mounted prefix routes) = false ->
  run_layer (Mount prefix routes) req w = (Next, w).
Proof.
  intros H. simpl. destruct (path req) as [|seg rest] eqn:Hp; [reflexivity|].
  destruct (eqb_ci seg prefix) eqn:Hci; [|reflexivity].
  apply run_router_unmatched. intros r Hr.
  unfold route_match. simpl.
  destruct (method_eqb (route_method r) (method req)) eqn:Hm; [|reflexivity].
  destruct (match_path (route_path r) rest) as [ps|] eqn:Hmatch; [|reflexivity].
  exfalso.
  assert (Hex : existsb (entry_matches req) (mounted prefix routes) = true).
  { apply existsb_exists.
    exists (route_method r, Lit prefix :: route_path r). split.
    - unfold mounted. apply in_map_iff. exists r. split; [reflexivity | exact Hr].
    - unfold entry_matches. simpl. rewrite Hm, Hp. simpl.
      rewrite Hci, Hmatch. reflexivity. }
  rewrite Hex in H. discriminate.
Qed.

Lemma route_table_mounted `{E : Env} :
  route_table
  = mounted "auth" authRoutes ++ mounted "companies" companiesRoutes
    ++ mounted "users" usersRoutes ++ mounted "jobs" jobsRoutes.
Proof. reflexivity. Qed.

Lemma unmatched_404 `{E : Env} (req : Request) (w : World) :
  registered req = false ->
  app req w = (Some (errorHandler (NotFoundError NotFound_message)), w).
Proof.
  intros H. unfold registered in H.
  rewrite route_table_mounted in H.
  rewrite !existsb_app in H.
  apply orb_false_iff in H as [Ha H].
  apply orb_false_iff in H as [Hc H].
  apply orb_false_iff in H as [Hu Hj].
  unfold app, layers.
  cbn [run_stack].
  rewrite (mount_unmatched _ _ _ _ Ha), (mount_unmatched _ _ _ _ Hc),
    (mount_unmatched _ _ _ _ Hu), (mount_unmatched _ _ _ _ Hj).
  reflexivity.
Qed.

(** The statuses the sources themselves decide are conventional ones;
    any other status is that of an error thrown, or of a response sent, by
    the code outside the sources. *)
Lemma statuses_classified `{E : Env} (req : Request) (w : World)
    (r : Response) :
  fst (app req w) = Some r -> conventional r \/ from_absent_code r.
Proof.
  intros Hr.
  destruct (app_sat (fun r => conventional r \/ guard_response r)
              (fun e => conventional_error e
                        \/ (exists c d, fst (model c d) = Throw e)
                        \/ (exists u, createToken u = Throw e)
                        \/ guard_error e))
    with (req := req) (w := w) as (r' & Hr' & Hcase).
  - intros v. left. unfold conventional. simpl. auto.
  - intros v. left. unfold conventional. simpl. auto.
  - intros msg. left. unfold conventional_error, conventional. simpl. auto.
  - left. unfold conventional_error, conventional. simpl. auto 7.
  - intros e He. left. unfold conventional_error, conventional, errorHandler.
    rewrite He. simpl. auto 8.
  - intros c d e He. right. left. exists c, d. exact He.
  - intros u e He. right. right. left. exists u. exact He.
  - intros req0. destruct (auth_ensureAdmin req0) eqn:Hg; simpl; auto.
    + right. right. right. exists req0. left. exact Hg.
    + right. exists req0. left. exact Hg.
  - intros req0. destruct (ensureCorrectUserOrAdmin req0) eqn:Hg; simpl; auto.
    + right. right. right. exists req0. right. exact Hg.
    + right. exists req0. right. exact Hg.
  - rewrite Hr in Hr'. injection Hr' as <-.
    destruct Hcase as [[H|H]|(err & H & ->)].
    + left. exact H.
    + right. right. right. right. exact H.
    + destruct H as [H|[(c & d & H)|[(u & H)|H]]].
      * left. exact H.
      * right. left. exists c, d, err. split; [exact H | reflexivity].
      * right. right. left. exists u, err. split; [exact H | reflexivity].
      * right. right. right. left. exists err. split; [exact H | reflexivity].
Qed.

Lemma conventional_statuses `{E : Env} (req : Request) (w : World)
    (r : Response) :
  models_conventional -> tokens_conventional -> guard_conventional ->
  fst (app req w) = Some r -> conventional r.
Proof.
  intros Hm Ht [Hgr Hge] Hr.
  destruct (statuses_classified req w r Hr)
    as [H|[(c & d & e & H & ->)|[(u & e & H & ->)|[(e & H & ->)|H]]]].
  - exact H.
  - exact (Hm c d e H).
  - exact (Ht u e H).
  - exact (Hge e H).
  - exact (Hgr r H).
Qed.

Lemma creation_201 `{E : Env} (req : Request) (w : World) (g : Guard)
    (schema : Schema) (c : ModelCall) (token : bool) :
  creation_endpoint req = Some (g, schema, c, token) ->
  guard_passes g req [] ->
  valid (jsonschema_validate (body req) schema) = true ->
  creation_succeeds c token w ->
  exists r, fst (app req w) = Some r
            /\ status r = 201%Z
            /\ calls (snd (app req w)) = calls w ++ [c].
Proof.
  intros Hep Hg Hv (v & Hc & Htok).
  destruct req as [m p q b u ps0]. unfold creation_endpoint in Hep.
  request_cbn.
  destruct m; try discriminate;
    destruct p as [|r [|x [|y p]]]; try discriminate;
    mount_cases Hep; try discriminate;
    injection Hep as <- <- <- <-;
    unfold guard_passes in Hg; request_cbn;
    enter_router;
    try rewrite Hg; dispatch_cbn;
    unfold jobs_post, companies_post, users_post, auth_register,
      register_data in *;
    unfold try_next, bind, validate, call, lift; simpl;
    rewrite Hv; simpl;
    destruct (model _ (db w)) as [res d']; simpl in Hc; subst res; simpl;
    try (destruct (Htok eq_refl) as [t ->]; simpl);
    eexists; repeat split.
Qed.

(** C7.  A request that matches no registered route is answered with status
    404, the catch-all's [NotFoundError] going through the error handler.
    Every response has one of the statuses 200, 201, 400, 401, 403, 404,
    500, unless its status is that of an error that a model, the token
    helper or an imported guard threw or passed on, or of a response such
    a guard sent: none of these is in the sources, and when they keep to
    the conventional statuses so does every response.  A successful
    creation (POST /companies, POST /jobs, POST /users, POST
    /auth/register) is answered with 201. *)
Theorem status_codes `{E : Env} (req : Request) (w : World) :
  (registered req = false ->
     app req w = (Some (errorHandler (NotFoundError NotFound_message)), w)
     /\ status (errorHandler (NotFoundError NotFound_message)) = 404%Z)
  /\ (forall r, fst (app req w) = Some r ->
        conventional r \/ from_absent_code r)
  /\ (models_conventional -> tokens_conventional -> guard_conventional ->
      forall r, fst (app req w) = Some r -> conventional r)
  /\ (forall g schema c token,
        creation_endpoint req = Some (g, schema, c, token) ->
        guard_passes g req [] ->
        valid (jsonschema_validate (body req) schema) = true ->
        creation_succeeds c token w ->
        exists r, fst (app req w) = Some r /\ status r = 201%Z).
Proof.
  split; [|split; [|split]].
  - intros H. split; [apply unmatched_404; exact H | reflexivity].
  - intros r Hr. exact (statuses_classified req w r Hr).
  - intros Hm Ht Hg r Hr. exact (conventional_statuses req w r Hm Ht Hg Hr).
  - intros g schema c token Hep Hpass Hv Hs.
    destruct (creation_201 req w g schema c token Hep Hpass Hv Hs)
      as (r & Hr & Hst & _).
    exists r. split; assumption.
Qed.

Lemma demo_models_conventional : @models_conventional Demo.demo.
Proof.
  intros c d e. unfold conventional_error, conventional.
  destruct c; simpl;
    try (destruct (String.eqb _ "missing"); simpl);
    intros H; try discriminate H; injection H as <-; simpl; auto 8.
Qed.

Lemma demo_tokens_conventional : @tokens_conventional Demo.demo.
Proof. intros u e H. discriminate H. Qed.

Lemma demo_guard_conventional : @guard_conventional Demo.demo.
Proof.
  split.
  - intros r [req [H|H]]; simpl in H.
    + unfold ensureAdmin_outcome in H.
      destruct (not_admin req); [|discriminate].
      injection H as <-. unfold conventional. simpl. auto 6.
    + unfold Demo.demo_guard in H. destruct (user req); discriminate.
  - intros e [req [H|H]]; simpl in H.
    + unfold ensureAdmin_outcome in H.
      destruct (not_admin req); discriminate.
    + unfold Demo.demo_guard in H. destruct (user req); [discriminate|].
      injection H as <-. unfold conventional_error, conventional. simpl. auto 6.
Qed.

(** C7 in the small environment: the path of the repository's test,
    /no-such-path; a job deleted at /JOBS/7, which is the route /jobs/:id;
    and an admin creating a job. *)
Lemma status_codes_witness :
  @app Demo.demo (Demo.request GET ["no-such-path"] JNull None) Demo.start
    = (Some (res_status_json 404 (error_body (JStr "Not Found") 404)), Demo.start)
  /\ conventional
       (res_json (JObj [("deleted", JNum (Finite false 7 0))]))
  /\ exists r,
       fst (@app Demo.demo (Demo.request POST ["jobs"] (JObj []) (Some Demo.admin))
                 Demo.start) = Some r
       /\ status r = 201%Z.
Proof.
  split; [|split].
  - apply (@status_codes Demo.demo
             (Demo.request GET ["no-such-path"] JNull None) Demo.start).
    reflexivity.
  - apply (proj1 (proj2 (proj2 (@status_codes Demo.demo
             (Demo.request DELETE ["JOBS"; "7"] JNull (Some Demo.admin))
             Demo.start)))
             demo_models_conventional demo_tokens_conventional
             demo_guard_conventional).
    reflexivity.
  - apply (proj2 (proj2 (proj2 (@status_codes Demo.demo
             (Demo.request POST ["jobs"] (JObj []) (Some Demo.admin))
             Demo.start)))
             AdminGuard jobNewSchema (Job_create (JObj [])) false).
    + reflexivity.
    + reflexivity.
    + reflexivity.
    + exists (JStr "row"). split; [reflexivity | discriminate].
Defined.

(* ===================================================================== *)
(** * Reading and writing properties *)
(* ===================================================================== *)

Section SetFacts.
Context {V : Type}.
Implicit Types (o : Obj V) (k : string) (v : V).

Lemma get_set_same o k v : get (set o k v) k = Some v.
Proof.
  induction o as [|[k' v'] o IH]; simpl.
  - rewrite String.eqb_refl. reflexivity.
  - destruct (String.eqb k' k) eqn:Hk; simpl; rewrite Hk; [reflexivity | exact IH].
Qed.

Lemma get_set_other o k k' v : k <> k' -> get (set o k v) k' = get o k'.
Proof.
  intros Hne. induction o as [|[k0 v0] o IH]; simpl.
  - destruct (String.eqb_spec k k'); [contradiction | reflexivity].
  - destruct (String.eqb_spec k0 k) as [->|Hk]; simpl.
    + destruct (String.eqb_spec k k'); [contradiction | reflexivity].
    + destruct (String.eqb k0 k'); [reflexivity | exact IH].
Qed.

Lemma get_own_props o k : wf_obj o -> get (own_props o) k = get o k.
Proof.
  intros Hwf.
  destruct (get o k) as [v|] eqn:Hg.
  - apply get_In; [apply own_props_wf; exact Hwf|].
    apply (Permutation_in _ (Permutation_sym (own_props_perm o))).
    apply get_In; assumption.
  - destruct (get (own_props o) k) as [v|] eqn:Hg'; [|reflexivity].
    apply get_In in Hg'; [|apply own_props_wf; exact Hwf].
    apply (Permutation_in _ (own_props_perm o)) in Hg'.
    apply get_In in Hg'; [|exact Hwf]. congruence.
Qed.

End SetFacts.


(* ===================================================================== *)
(** * POST /auth/register *)
(* ===================================================================== *)

(** C8.  For every body that POST /auth/register accepts, [User.register]
    is called, once, with an object whose [isAdmin] is [false]; the other
    properties are those of the body.  Two bodies that differ only in
    [isAdmin] (supplied or not, with whatever value) are registered with
    the same properties, [isAdmin] being [false] for both. *)
Theorem register_isAdmin_false `{E : Env} (req : Request) (w : World) :
  method req = POST ->
  path req = ["auth"; "register"] ->
  valid (jsonschema_validate (body req) userRegisterSchema) = true ->
  calls (snd (app req w))
    = calls w ++ [User_register (JObj (register_data req))]
  /\ get (register_data req) "isAdmin" = Some (JBool false)
  /\ (forall o k, body req = JObj o -> wf_obj o -> k <> "isAdmin" ->
        get (register_data req) k = get o k)
  /\ (forall req2,
        (forall k, k <> "isAdmin" ->
           get (spread (body req)) k = get (spread (body req2)) k) ->
        forall k, get (register_data req) k = get (register_data req2) k).
Proof.
  intros Hm Hp Hv. split; [|split; [|split]].
  - destruct req as [m p q b u ps0]; simpl in *; subst.
    unfold app, layers; simpl; unfold route_match; simpl.
    unfold auth_register, try_next, bind, validate, call, lift; simpl.
    rewrite Hv; simpl.
    destruct (model _ (db w)) as [[v|e] d']; simpl; [|reflexivity].
    destruct (createToken v); reflexivity.
  - unfold register_data. apply get_set_same.
  - intros o k Hb Hwf Hk. unfold register_data. rewrite Hb. simpl.
    rewrite get_set_other by congruence. apply get_own_props. exact Hwf.
  - intros req2 Hsame k. unfold register_data.
    destruct (String.eqb_spec "isAdmin" k) as [<-|Hk].
    + rewrite !get_set_same. reflexivity.
    + rewrite !get_set_other by exact Hk. apply Hsame. congruence.
Qed.

(** C8 in the small environment: a body that asks for [isAdmin: true]. *)
Lemma register_isAdmin_false_witness :
  calls (snd (@app Demo.demo
                (Demo.request POST ["auth"; "register"]
                   (JObj [("username", JStr "u"); ("isAdmin", JBool true)]) None)
                Demo.start))
  = [User_register (JObj [("username", JStr "u"); ("isAdmin", JBool false)])].
Proof.
  apply (@register_isAdmin_false Demo.demo
           (Demo.request POST ["auth"; "register"]
              (JObj [("username", JStr "u"); ("isAdmin", JBool true)]) None)
           Demo.start); reflexivity.
Defined.

(* ===================================================================== *)
(** * GET /jobs *)
(* ===================================================================== *)



(* ===================================================================== *)
(** * DELETE /jobs/:id *)
(* ===================================================================== *)

Lemma StringToNumber_non_numeric (s : string) :
  starts_non_numeric s = true -> StringToNumber s = NaN.
Proof.
  unfold starts_non_numeric, StringToNumber.
  destruct (trim s) as [|c rest]; [discriminate|].
  destruct c as [b0 b1 b2 b3 b4 b5 b6 b7].
  destruct b0, b1, b2, b3, b4, b5, b6, b7; intros H;
    try discriminate H; reflexivity.
Qed.

(** C10.  For every DELETE /jobs/:id that the imported [ensureAdmin] lets
    through (an admin's) and for which [Job.remove] returns, the response
    is 200 with the body [{ deleted: n }] where [n] is the number that
    unary plus makes of the [id] segment, never the string; for an [id]
    that is no numeric literal, [n] is NaN. *)
Theorem jobs_delete_number `{E : Env} (req : Request) (w : World)
    (id : string) (v : JsValue) :
  method req = DELETE ->
  path req = ["jobs"; id] ->
  id <> "" ->
  auth_ensureAdmin (routed req [("id", id)]) = Next ->
  fst (model (Job_remove id) (db w)) = Return v ->
  fst (app req w)
    = Some (res_json (JObj [("deleted", JNum (StringToNumber id))]))
  /\ JNum (StringToNumber id) <> JStr id
  /\ (starts_non_numeric id = true ->
      fst (app req w) = Some (res_json (JObj [("deleted", JNum NaN)]))).
Proof.
  intros Hm Hp Hid Ha Hr.
  assert (Happ : fst (app req w)
                 = Some (res_json (JObj [("deleted", JNum (StringToNumber id))]))).
  { rewrite (admin_guarded_app req w jobs_delete [("id", id)]).
    - rewrite Ha. unfold jobs_delete, try_next, bind, call, param. simpl.
      destruct (model (Job_remove id) (db w)) as [res d']; simpl in Hr;
        subst res. reflexivity.
    - rewrite Hm, Hp. unfold admin_guarded_endpoint.
      rewrite (eqb_neq_false _ _ Hid). reflexivity. }
  split; [exact Happ|]. split; [discriminate|].
  intros Hn. rewrite Happ, (StringToNumber_non_numeric id Hn). reflexivity.
Qed.

(** C10 in the small environment: DELETE /jobs/abc by an admin. *)
Lemma jobs_delete_number_witness :
  fst (@app Demo.demo (Demo.request DELETE ["jobs"; "abc"] JNull (Some Demo.admin))
            Demo.start)
  = Some (res_json (JObj [("deleted", JNum NaN)])).
Proof.
  apply (@jobs_delete_number Demo.demo
           (Demo.request DELETE ["jobs"; "abc"] JNull (Some Demo.admin))
           Demo.start "abc" (JStr "abc")); reflexivity || discriminate.
Defined.

(* ===================================================================== *)
(** * Numeric strings *)
(* ===================================================================== *)

Lemma digit_not_space (c : ascii) : is_digit c = true -> is_space c = false.
Proof.
  destruct c as [b0 b1 b2 b3 b4 b5 b6 b7].
  destruct b0, b1, b2, b3, b4, b5, b6, b7; intros H;
    try discriminate H; reflexivity.
Qed.

(** A string [digits_value] accepts is made of digits: [span] takes all
    of it and [trim_end] leaves it alone. *)
Lemma digits_value_all_digits (s : string) (acc n : N) :
  digits_value acc s = Some n ->
  span is_digit s = (s, "") /\ trim_end s = s
  /\ match s with String c _ => is_digit c = true | EmptyString => True end.
Proof.
  revert acc. induction s as [|c s IH]; intros acc H; simpl in *.
  - auto.
  - destruct (is_digit c) eqn:Hc; [|discriminate].
    destruct (IH _ H) as (Hspan & Htrim & _).
    rewrite Hspan, Htrim. repeat split.
    destruct s; [|reflexivity].
    rewrite (digit_not_space c Hc). reflexivity.
Qed.

(** A non-empty string of decimal digits converts to the number it
    writes, leading zeros included. *)
Lemma StringToNumber_digits (s : string) (n : N) :
  s <> "" -> digits_value 0 s = Some n -> StringToNumber s = Finite false n 0.
Proof.
  intros Hne Hd.
  destruct (digits_value_all_digits s 0 n Hd) as (Hspan & Htrim & Hfirst).
  destruct s as [|c rest]; [contradiction|].
  assert (Htr : trim (String c rest) = String c rest).
  { unfold trim. simpl trim_start. rewrite (digit_not_space c Hfirst). exact Htrim. }
  assert (Hrest : match rest with
                  | String d _ => is_digit d = true
                  | EmptyString => True
                  end).
  { simpl in Hd. rewrite Hfirst in Hd.
    destruct rest as [|d ds]; [exact I|].
    simpl in Hd. destruct (is_digit d); [reflexivity | discriminate]. }
  assert (Hp : parse_signed_decimal false (String c rest) = Finite false n 0).
  { unfold parse_signed_decimal.
    assert (Hinf : String.eqb (String c rest) "Infinity" = false).
    { simpl. destruct (Ascii.eqb_spec c "I") as [->|]; [discriminate | reflexivity]. }
    rewrite Hinf. unfold parse_unsigned_decimal. rewrite Hspan.
    simpl. unfold digits_or_zero. rewrite Hd. reflexivity. }
  unfold StringToNumber. rewrite Htr. rewrite <- Hp.
  destruct c as [b0 b1 b2 b3 b4 b5 b6 b7].
  destruct b0, b1, b2, b3, b4, b5, b6, b7;
    try discriminate Hfirst; try reflexivity.
  destruct rest as [|d ds]; [reflexivity|].
  destruct d as [b0 b1 b2 b3 b4 b5 b6 b7].
  destruct b0, b1, b2, b3, b4, b5, b6, b7;
    try discriminate Hrest; reflexivity.
Qed.

(* ===================================================================== *)
(** * config.js: the exported values *)
(* ===================================================================== *)

Import Config.

Lemma or_string_nonempty (a : option string) (b : string) :
  b <> "" -> or_string a b <> "".
Proof.
  intros Hb. unfold or_string. destruct a as [s|]; [|exact Hb].
  destruct (String.eqb_spec s ""); assumption.
Qed.

Lemma or_number_truthy (a b : JsNumber) :
  is_zero_or_nan b = false -> is_zero_or_nan (or_number a b) = false.
Proof.
  intros Hb. unfold or_number. destruct (is_zero_or_nan a) eqn:Ha; assumption.
Qed.

Section DeleteFacts.
Context {V : Type}.
Implicit Types (o : Obj V) (k : string).

Lemma get_delete_same o k : get (delete o k) k = None.
Proof.
  induction o as [|[k' v] o IH]; simpl; [reflexivity|].
  destruct (String.eqb k' k) eqn:Hk; [exact IH|].
  simpl. rewrite Hk. exact IH.
Qed.

Lemma get_delete_other o k k' : k <> k' -> get (delete o k) k' = get o k'.
Proof.
  intros Hne. induction o as [|[k0 v] o IH]; simpl; [reflexivity|].
  destruct (String.eqb_spec k0 k) as [->|Hk]; simpl.
  - destruct (String.eqb_spec k k'); [contradiction | exact IH].
  - destruct (String.eqb k0 k'); [reflexivity | exact IH].
Qed.

End DeleteFacts.

(** X1.  Whatever the environment holds, no exported value is falsy:
    [SECRET_KEY] and the database URI are never the empty string, [PORT] is
    never zero nor NaN, and the work factor is 1 under test and 12
    otherwise. *)
Theorem config_never_falsy (env : ProcessEnv) :
  SECRET_KEY env <> ""
  /\ getDatabaseUri env <> ""
  /\ truthy (JNum (PORT env)) = true
  /\ BCRYPT_WORK_FACTOR env
     = (if is_test (get env "NODE_ENV") then 1 else 12)%N
  /\ (BCRYPT_WORK_FACTOR env = 1 \/ BCRYPT_WORK_FACTOR env = 12)%N.
Proof.
  repeat split.
  - apply or_string_nonempty. discriminate.
  - unfold getDatabaseUri. destruct (is_test _); [discriminate|].
    apply or_string_nonempty. discriminate.
  - simpl. unfold PORT. rewrite or_number_truthy; reflexivity.
  - unfold BCRYPT_WORK_FACTOR. destruct (is_test _); auto.
Qed.

(** X2.  [PORT] is 3001 when the variable is unset, empty, zero, or starts
    with a character no number starts with; for a string of decimal digits
    whose value is not zero and at most 2^53, so that the number holds it
    exactly, it is that value. *)
Theorem PORT_from_environment (env : ProcessEnv) :
  (get env "PORT" = None -> PORT env = Finite false 3001 0)
  /\ (get env "PORT" = Some "" -> PORT env = Finite false 3001 0)
  /\ (forall s, get env "PORT" = Some s -> starts_non_numeric s = true ->
        PORT env = Finite false 3001 0)
  /\ (forall s n, get env "PORT" = Some s -> s <> "" ->
        digits_value 0 s = Some n -> exact_integer n ->
        PORT env = if (n =? 0)%N then Finite false 3001 0 else Finite false n 0).
Proof.
  unfold PORT, plus_env, or_number. repeat split.
  - intros ->. reflexivity.
  - intros ->. reflexivity.
  - intros s -> Hs. rewrite (StringToNumber_non_numeric s Hs). reflexivity.
  - intros s n -> Hne Hd _. rewrite (StringToNumber_digits s n Hne Hd).
    unfold is_zero_or_nan, rounds_to_zero.
    destruct (n =? 0)%N; reflexivity.
Qed.

(** X2 on the value the repository's test sets: [PORT=5000]. *)
Lemma PORT_from_environment_witness :
  PORT [("PORT", "5000")] = Finite false 5000 0.
Proof.
  apply (proj2 (proj2 (proj2 (PORT_from_environment [("PORT", "5000")])))
           "5000" 5000%N);
    first [reflexivity | discriminate | unfold exact_integer; lia].
Defined.

(** A literal too small for a double reads as zero, which is falsy: such
    a [PORT] gives 3001.  The least positive double is 2^-1074, about
    4.9e-324; a literal at most half of it rounds to zero. *)
Example underflow_is_falsy :
  truthy (JNum (StringToNumber "1e-400")) = false
  /\ truthy (JNum (StringToNumber "2e-324")) = false
  /\ truthy (JNum (StringToNumber "3e-324")) = true
  /\ PORT [("PORT", "1e-400")] = Finite false 3001 0
  /\ PORT [("PORT", "0.0")] = Finite false 3001 0.
Proof. repeat split. Qed.

(** X3.  The database URI depends on [NODE_ENV] and [DATABASE_URL] only,
    and under test not on [DATABASE_URL] either: setting another variable,
    or [DATABASE_URL] while [NODE_ENV] is [test], leaves it as it is.
    Outside test, deleting [DATABASE_URL] gives the default database. *)
Theorem getDatabaseUri_dependencies (env : ProcessEnv) :
  (forall k v, k <> "NODE_ENV" -> k <> "DATABASE_URL" ->
     getDatabaseUri (set env k v) = getDatabaseUri env)
  /\ (forall v, get env "NODE_ENV" = Some "test" ->
        getDatabaseUri (set env "DATABASE_URL" v) = "postgresql:///jobly_test")
  /\ (forall v, get env "NODE_ENV" <> Some "test" -> v <> "" ->
        getDatabaseUri (set env "DATABASE_URL" v) = v)
  /\ (get env "NODE_ENV" <> Some "test" ->
        getDatabaseUri (delete env "DATABASE_URL") = "postgresql:///jobly").
Proof.
  assert (Htest : get env "NODE_ENV" <> Some "test" ->
                  is_test (get env "NODE_ENV") = false).
  { intros H. unfold is_test. destruct (get env "NODE_ENV") as [s|]; [|reflexivity].
    destruct (String.eqb_spec s "test") as [->|]; [contradiction | reflexivity]. }
  unfold getDatabaseUri. repeat split.
  - intros k v Hn Hd. rewrite !get_set_other by assumption. reflexivity.
  - intros v Hn. rewrite get_set_other by discriminate. rewrite Hn. reflexivity.
  - intros v Hn Hv. rewrite get_set_other by discriminate.
    rewrite (Htest Hn), get_set_same. unfold or_string.
    destruct (String.eqb_spec v ""); [contradiction | reflexivity].
  - intros Hn. rewrite get_delete_other by discriminate.
    rewrite (Htest Hn), get_delete_same. reflexivity.
Qed.

(** X3 on the steps of the repository's test: with [NODE_ENV=other],
    deleting [DATABASE_URL] gives the default database. *)
Lemma getDatabaseUri_dependencies_witness :
  getDatabaseUri
    (delete [("DATABASE_URL", "other"); ("NODE_ENV", "other")] "DATABASE_URL")
  = "postgresql:///jobly".
Proof.
  apply (getDatabaseUri_dependencies
           [("DATABASE_URL", "other"); ("NODE_ENV", "other")]).
  discriminate.
Defined.

(* ===================================================================== *)
(** * helpers/sql.js: the mapping is read at the keys only *)
(* ===================================================================== *)

Lemma Array_map_from_ext_in {A B} (f g : A -> nat -> B) (l : list A) (k : nat) :
  (forall x i, In x l -> f x i = g x i) ->
  Array_map_from f k l = Array_map_from g k l.
Proof.
  revert k. induction l as [|x l IH]; intros k H; simpl.
  - reflexivity.
  - rewrite (H x k) by (left; reflexivity).
    f_equal. apply IH. intros y i Hy. apply H. right. exact Hy.
Qed.

(** X4.  [sqlForPartialUpdate] reads [jsToSql] at the keys of
    [dataToUpdate] only: two mappings that give every key of the data the
    same column give the same result, the column of a key being the one
    of the amended C1.  So an entry for a field that is not updated has no
    effect; and mapping a field to its own name is the same as not mapping
    it, unless the name is that of an inherited member such as
    [constructor], for which the two differ. *)
Theorem sqlForPartialUpdate_mapping_at_keys {V} (dataToUpdate : Obj V)
    (jsToSql jsToSql' : Obj string) :
  (forall k, In k (map fst dataToUpdate) ->
     column_if_truthy jsToSql k = column_if_truthy jsToSql' k) ->
  sqlForPartialUpdate dataToUpdate jsToSql
  = sqlForPartialUpdate dataToUpdate jsToSql'.
Proof.
  intros H. unfold sqlForPartialUpdate.
  destruct (Nat.eqb (length (Object_keys dataToUpdate)) 0); [reflexivity|].
  do 2 f_equal. unfold Array_map. f_equal.
  apply Array_map_from_ext_in. intros k i Hk.
  unfold col_assignment. do 2 f_equal.
  apply (Permutation_in _ (Object_keys_perm dataToUpdate)) in Hk.
  rewrite !or_member_lookup. exact (H k Hk).
Qed.

(** X4 on the object of the repository's tests: an entry for [email],
    which is not updated, and [age] mapped to itself change nothing. *)
Lemma sqlForPartialUpdate_mapping_at_keys_witness :
  sqlForPartialUpdate
    [("firstName", JStr "John"); ("age", JNum (Finite false 30 0))]
    [("firstName", "first_name"); ("age", "age"); ("email", "e_mail")]
  = sqlForPartialUpdate
      [("firstName", JStr "John"); ("age", JNum (Finite false 30 0))]
      [("firstName", "first_name")].
Proof.
  apply sqlForPartialUpdate_mapping_at_keys.
  intros k [<-|[<-|[]]]; reflexivity.
Defined.

(** For [constructor] it is not the same: the empty mapping gives the text
    of the inherited function, the mapping to itself the name. *)
Example sql_inherited_name :
  sqlForPartialUpdate [("constructor", JStr "x")]
    [("constructor", "constructor")]
    = Return (mkSqlUpdate (dquote ++ "constructor" ++ dquote ++ "=$1")
                          [JStr "x"])
  /\ sqlForPartialUpdate [("constructor", JStr "x")] []
     = Return (mkSqlUpdate
                 (dquote ++ "function Object() { [native code] }" ++ dquote
                  ++ "=$1")
                 [JStr "x"])
  /\ sqlForPartialUpdate [("toString", JStr "x"); ("__proto__", JStr "y")] []
     = Return (mkSqlUpdate
                 (dquote ++ "function toString() { [native code] }" ++ dquote
                  ++ "=$1, " ++ dquote ++ "[object Object]" ++ dquote ++ "=$2")
                 [JStr "x"; JStr "y"]).
Proof. repeat split. Qed.

(* ===================================================================== *)
(** * One model call per request *)
(* ===================================================================== *)

Section OneCall.
Context `{E : Env}.

(** The calls that may be made: those of a method under a mount point. *)
Variables (m : Method) (prefix : string).

Definition quiet {A} (c : M A) : Prop := forall w, snd (c w) = w.

(** The computation throws before any call, or makes one allowed call,
    whose error, if it throws one, is the computation's. *)
Definition calls_once {A} (c : M A) : Prop :=
  forall w,
    (snd (c w) = w /\ exists e, fst (c w) = Throw e)
    \/ exists mc, call_allowed m prefix mc = true
                  /\ snd (c w) = after mc w
                  /\ forall e, fst (model mc (db w)) = Throw e ->
                               fst (c w) = Throw e.

(** How a run may end without a call: with an error passed on, or with a
    guard's own response. *)
Definition ends_early (o : Outcome) : Prop :=
  match o with
  | Next => False
  | NextErr _ => True
  | Respond r => guard_response r
  end.

(** The same of a handler's run, which moreover hands over with [next()]
    only when it has done nothing. *)
Definition stops (f : World -> Outcome * World) : Prop :=
  forall w,
    f w = (Next, w)
    \/ (snd (f w) = w /\ ends_early (fst (f w)))
    \/ (fst (f w) <> Next
        /\ exists mc, call_allowed m prefix mc = true
                      /\ snd (f w) = after mc w
                      /\ forall e, fst (model mc (db w)) = Throw e ->
                                   fst (f w) = NextErr e).

Lemma quiet_ret {A} (a : A) : quiet (ret a).
Proof. intros w. reflexivity. Qed.

Lemma quiet_lift {A} (r : Result A) : quiet (lift r).
Proof. intros w. reflexivity. Qed.

Lemma quiet_validate (data : JsValue) (schema : Schema) :
  quiet (validate data schema).
Proof.
  intros w. unfold validate.
  destruct (valid (jsonschema_validate data schema)); reflexivity.
Qed.

Lemma quiet_bind {A B} (c : M A) (k : A -> M B) :
  quiet c -> (forall a, quiet (k a)) -> quiet (bind c k).
Proof.
  intros Hc Hk w. unfold bind. specialize (Hc w).
  destruct (c w) as [[a|e] w']; simpl in *; subst; [apply Hk | reflexivity].
Qed.

Lemma calls_once_after_quiet {A B} (c : M A) (k : A -> M B) :
  quiet c -> (forall a, calls_once (k a)) -> calls_once (bind c k).
Proof.
  intros Hc Hk w. unfold bind. specialize (Hc w).
  destruct (c w) as [[a|e] w']; simpl in *; subst; [apply Hk|].
  left. split; [reflexivity | exists e; reflexivity].
Qed.

Lemma calls_once_call {B} (mc : ModelCall) (k : JsValue -> M B) :
  call_allowed m prefix mc = true -> (forall a, quiet (k a)) ->
  calls_once (bind (call mc) k).
Proof.
  intros Hmc Hk w. right. exists mc. split; [exact Hmc|].
  unfold bind, call, after.
  destruct (model mc (db w)) as [[a|e] d'] eqn:Hm; simpl.
  - split; [apply Hk | discriminate].
  - split; [reflexivity | intros e' [= <-]; reflexivity].
Qed.

Lemma try_next_stops (c : M Response) : calls_once c -> stops (try_next c).
Proof.
  intros Hc w. right. unfold try_next.
  destruct (Hc w) as [(Hw & e & He)|(mc & Ha & Hw & He)].
  - left. destruct (c w) as [[r|e'] w']; simpl in *; [discriminate|].
    split; [exact Hw | exact I].
  - right. destruct (c w) as [[r|e'] w']; simpl in *;
      (split; [discriminate|]); exists mc; repeat split; auto;
      intros e0 He0; specialize (He e0 He0); congruence.
Qed.

Lemma pure_middleware_stops (f : Request -> Outcome) (req : Request) :
  (forall r, f req = Respond r -> guard_response r) ->
  stops (pure_middleware f req).
Proof.
  intros Hf w. unfold pure_middleware.
  destruct (f req) eqn:Ho; [left; reflexivity | right; left | right; left];
    simpl; (split; [reflexivity|]); [exact I | apply Hf; reflexivity].
Qed.

Lemma run_handlers_stops (hs : list Handler) (req : Request) :
  Forall (fun h => stops (h req)) hs -> stops (run_handlers hs req).
Proof.
  induction hs as [|h hs IH]; intros Hall w; simpl.
  - left. reflexivity.
  - inversion Hall as [|? ? Hh Hhs]; subst.
    destruct (Hh w) as [Hn|[(Hw & Hearly)|(Hne & Hcall)]].
    + rewrite Hn. apply IH. exact Hhs.
    + right. left. destruct (h req w) as [[|e|r] w']; simpl in *;
        [contradiction | |]; (split; assumption).
    + right. right. destruct (h req w) as [[|e|r] w']; simpl in *;
        [contradiction | |]; (split; [discriminate | exact Hcall]).
Qed.

End OneCall.

Lemma method_eqb_eq (a b : Method) : method_eqb a b = true -> a = b.
Proof. destruct a, b; simpl; intros H; try discriminate H; reflexivity. Qed.

(** Steps through a handler body up to its model call and past it. *)
Ltac one_call :=
  intros; apply try_next_stops;
  repeat first
    [ apply calls_once_call;
      [ reflexivity
      | intros; repeat first [apply quiet_ret | apply quiet_lift
                             | apply quiet_bind; [|intros]] ]
    | apply calls_once_after_quiet;
      [ first [apply quiet_validate | apply quiet_lift] | intros ] ].

Section RoutersOneCall.
Context `{E : Env}.

Definition route_stops (prefix : string) (r : Route) : Prop :=
  forall req, Forall (fun h => stops (route_method r) prefix (h req))
                     (route_handlers r).

Lemma run_router_stops (prefix : string) (routes : list Route) (req : Request) :
  Forall (route_stops prefix) routes ->
  stops (method req) prefix (run_router routes req).
Proof.
  induction routes as [|r routes IH]; intros Hall w; simpl.
  - left. reflexivity.
  - inversion Hall as [|? ? Hr Hrs]; subst.
    unfold route_match.
    destruct (method_eqb (route_method r) (method req)) eqn:Hm;
      [|apply IH; exact Hrs].
    apply method_eqb_eq in Hm.
    destruct (match_path (route_path r) (path req)) as [ps|];
      [|apply IH; exact Hrs].
    pose proof (run_handlers_stops (route_method r) prefix (route_handlers r)
                  (with_params req ps) (Hr _) w) as H.
    rewrite Hm in H.
    destruct H as [Hn|[(Hw & Hearly)|(Hne & Hcall)]].
    + rewrite Hn. apply IH. exact Hrs.
    + right. left.
      destruct (run_handlers (route_handlers r) (with_params req ps) w)
        as [[|e|resp] w']; simpl in *; [contradiction | |]; (split; assumption).
    + right. right.
      destruct (run_handlers (route_handlers r) (with_params req ps) w)
        as [[|e|resp] w']; simpl in *;
        [contradiction | |]; (split; [discriminate | exact Hcall]).
Qed.

Lemma ensureAdmin_stops (m : Method) (prefix : string) (req : Request) :
  stops m prefix (Routes.ensureAdmin req).
Proof.
  apply pure_middleware_stops. intros r Hr. exists req. left. exact Hr.
Qed.

Lemma correctUserOrAdmin_stops (m : Method) (prefix : string) (req : Request) :
  stops m prefix (correctUserOrAdmin req).
Proof.
  apply pure_middleware_stops. intros r Hr. exists req. right. exact Hr.
Qed.

Ltac routes_stop :=
  repeat match goal with
    | |- Forall _ [] => apply Forall_nil
    | |- Forall _ (_ :: _) => apply Forall_cons
    | |- route_stops _ _ => intros ?; simpl
    | |- stops _ _ (Routes.ensureAdmin _) => apply ensureAdmin_stops
    | |- stops _ _ (correctUserOrAdmin _) => apply correctUserOrAdmin_stops
    | |- stops _ _ _ => one_call
    end.

Lemma authRoutes_stops : Forall (route_stops "auth") authRoutes.
Proof. unfold authRoutes. routes_stop. Qed.

Lemma companiesRoutes_stops : Forall (route_stops "companies") companiesRoutes.
Proof. unfold companiesRoutes. routes_stop. Qed.

Lemma usersRoutes_stops : Forall (route_stops "users") usersRoutes.
Proof. unfold usersRoutes. routes_stop. Qed.

Lemma jobsRoutes_stops : Forall (route_stops "jobs") jobsRoutes.
Proof. unfold jobsRoutes. routes_stop. Qed.

End RoutersOneCall.

Section AppOneCall.
Context `{E : Env}.

(** The calls allowed under a mount point are those allowed under the
    first segment of a path it matches. *)
Lemma call_allowed_ci (m : Method) (seg prefix : string) (mc : ModelCall) :
  eqb_ci seg prefix = true ->
  call_allowed m seg mc = call_allowed m prefix mc.
Proof.
  intros H. unfold call_allowed.
  rewrite !(eqb_ci_congr seg prefix) by exact H. reflexivity.
Qed.

Lemma stops_ci (m : Method) (seg prefix : string)
    (f : World -> Outcome * World) :
  eqb_ci seg prefix = true -> stops m prefix f -> stops m seg f.
Proof.
  intros H Hs w.
  destruct (Hs w) as [Hn|[He|(Hne & mc & Ha & Hw & Ht)]].
  - left. exact Hn.
  - right. left. exact He.
  - right. right. split; [exact Hne|]. exists mc.
    rewrite (call_allowed_ci m seg prefix mc H). auto.
Qed.

Lemma mount_stops (prefix : string) (router : list Route) (req : Request) :
  Forall (route_stops prefix) router ->
  stops (method req) (mount_point req) (run_layer (Mount prefix router) req).
Proof.
  intros Hr. unfold mount_point.
  destruct (path req) as [|seg rest] eqn:Hp.
  { intros w. left. simpl. rewrite Hp. reflexivity. }
  simpl. destruct (eqb_ci seg prefix) eqn:Hci.
  - apply (stops_ci _ _ _ _ Hci). intros w.
    pose proof (run_router_stops prefix router (with_path req rest) Hr w) as H.
    simpl. rewrite Hp, Hci. exact H.
  - intros w. left. simpl. rewrite Hp, Hci. reflexivity.
Qed.

Lemma run_stack_stops (m : Method) (prefix : string) (ls : list Layer)
    (req : Request) :
  Forall (fun l => stops m prefix (run_layer l req)) ls ->
  stops m prefix (run_stack ls req).
Proof.
  induction ls as [|l ls IH]; intros Hall w; simpl.
  - left. reflexivity.
  - inversion Hall as [|? ? Hl Hls]; subst.
    destruct (Hl w) as [Hn|[(Hw & Hearly)|(Hne & Hcall)]].
    + rewrite Hn. apply IH. exact Hls.
    + right. left. destruct (run_layer l req w) as [[|e|r] w']; simpl in *;
        [contradiction | |]; (split; assumption).
    + right. right. destruct (run_layer l req w) as [[|e|r] w']; simpl in *;
        [contradiction | |]; (split; [discriminate | exact Hcall]).
Qed.

(** Whatever the request, the stack either ends without a call, with an
    error passed on or a guard's response; or it makes one call, allowed
    for the request's method and mount point, and passes on the error of
    that call when it throws. *)
Lemma stack_stops (req : Request) :
  stops (method req) (mount_point req) (run_stack layers req).
Proof.
  apply run_stack_stops. unfold layers.
  repeat apply Forall_cons; try apply Forall_nil.
  - apply mount_stops, authRoutes_stops.
  - apply mount_stops, companiesRoutes_stops.
  - apply mount_stops, usersRoutes_stops.
  - apply mount_stops, jobsRoutes_stops.
  - apply (pure_middleware_stops (method req) (mount_point req)).
    discriminate.
Qed.

(** The same of the application: either it makes no call, and then
    answers through the error handler or with a guard's response; or it
    makes one call, and when that call throws, the error handler answers
    with its error. *)
Lemma app_one_call (req : Request) (w : World) :
  (snd (app req w) = w
   /\ forall r, fst (app req w) = Some r ->
                through_error_handler req w r
                \/ (sent_directly req w r /\ guard_response r))
  \/ exists mc,
       call_allowed (method req) (mount_point req) mc = true
       /\ snd (app req w) = after mc w
       /\ forall e, fst (model mc (db w)) = Throw e ->
                    fst (app req w) = Some (errorHandler e).
Proof.
  pose proof (stack_stops req) as H.
  unfold app, through_error_handler, sent_directly.
  destruct (H w) as [Hn|[(Hw & Hearly)|(_ & mc & Ha & Hw & He)]].
  - rewrite Hn. left. split; [reflexivity | discriminate].
  - left. destruct (run_stack layers req w) as [[|e|r] w']; simpl in *;
      [contradiction | |]; (split; [exact Hw|]); intros r0 [= <-].
    + left. exists e. split; reflexivity.
    + right. split; [reflexivity | exact Hearly].
  - right. exists mc. rewrite <- Hw.
    destruct (run_stack layers req w) as [[|e|r] w']; simpl in *;
      repeat split; auto;
      intros e' He'; specialize (He e' He'); congruence.
Qed.

End AppOneCall.

(* ===================================================================== *)
(** * What every request gets, and what it does to the state *)
(* ===================================================================== *)


(** A request in capitals is registered like the one in small letters, and
    is answered by the route: GET /JOBS is not a 404. *)
Example capitals_registered :
  registered (Demo.request GET ["JOBS"] JNull None) = true
  /\ registered (Demo.request GET ["Jobs"; "7"] JNull None)
     = true
  /\ registered (Demo.request GET ["jobs"; ""] JNull None)
     = false
  /\ fst (@app Demo.demo (Demo.request GET ["JOBS"] JNull None) Demo.start)
     = Some (res_json (JObj [("jobs", JStr "row")])).
Proof. repeat split. Qed.

(** X6.  A request makes at most one model call, on the database as the
    request found it, and changes the state in no other way.  When that
    call throws, no response of a route is sent: the client gets the error
    through the error handler, with the error's own status when it has a
    non-zero one and 500 otherwise. *)
Theorem one_model_call_per_request `{E : Env} (req : Request) (w : World) :
  snd (app req w) = w
  \/ exists mc,
       db (snd (app req w)) = snd (model mc (db w))
       /\ calls (snd (app req w)) = calls w ++ [mc]
       /\ forall e, fst (model mc (db w)) = Throw e ->
            fst (app req w) = Some (errorHandler e)
            /\ status (errorHandler e)
               = match err_status e with
                 | Some s => if (s =? 0)%Z then 500%Z else s
                 | None => 500%Z
                 end.
Proof.
  destruct (app_one_call req w) as [[H _]|(mc & _ & Hw & He)]; [left; exact H|].
  right. exists mc. rewrite Hw. repeat split. apply He. assumption.
Qed.

(** X7.  The model call a request makes belongs to its method and mount
    point, the first segment of its path in whatever case it is written.
    In particular a GET only finds or gets, under /jobs only the job model
    is called, and so on for the other methods and routers. *)
Theorem model_calls_follow_method `{E : Env} (req : Request) (w : World) :
  exists made,
    calls (snd (app req w)) = calls w ++ made
    /\ length made <= 1
    /\ Forall (fun mc => call_allowed (method req) (mount_point req) mc = true)
              made
    /\ (method req = GET ->
        Forall (fun mc => match mc with
                          | Company_findAll _ | Company_get _
                          | Job_findAll _ | Job_get _
                          | User_findAll | User_get _ => True
                          | _ => False
                          end) made).
Proof.
  destruct (app_one_call req w) as [[H _]|(mc & Ha & Hw & _)].
  - exists []. rewrite H, app_nil_r. repeat split; auto.
  - exists [mc]. rewrite Hw. repeat split; auto.
    intros Hget. constructor; [|constructor].
    rewrite Hget in Ha. unfold call_allowed in Ha.
    repeat match type of Ha with
      | (if ?b then _ else _) = true => destruct b
      end;
      destruct mc; try discriminate Ha; exact I.
Qed.

(** X16.  A route's own response follows a model call that returned: a
    response that a layer of the stack sent itself (it did not come from
    the error handler) and that is not a guard's is sent only after the
    request's one model call has returned, on the state that call left. *)
Theorem route_response_follows_call `{E : Env} (req : Request) (w : World)
    (r : Response) :
  sent_directly req w r ->
  ~ guard_response r ->
  exists mc v,
    fst (model mc (db w)) = Return v
    /\ snd (app req w) = after mc w
    /\ call_allowed (method req) (mount_point req) mc = true.
Proof.
  unfold sent_directly. intros Hr Hng.
  destruct (stack_stops req w) as [Hn|[(Hw & Hearly)|(_ & mc & Ha & Hw & He)]].
  - rewrite Hn in Hr. discriminate Hr.
  - rewrite Hr in Hearly. contradiction.
  - exists mc. destruct (fst (model mc (db w))) as [v|e] eqn:Hm.
    + exists v. repeat split; [|exact Ha].
      rewrite <- Hw. unfold app.
      destruct (run_stack layers req w) as [[|e|r'] w']; reflexivity.
    + specialize (He e eq_refl). rewrite Hr in He. discriminate He.
Qed.

(** X16 in the small environment: the 201 for a job created at /Jobs. *)
Lemma route_response_follows_call_witness :
  exists mc v,
    fst (Demo.demo_model mc 0) = Return v
    /\ snd (@app Demo.demo
              (Demo.request POST ["Jobs"] (JObj []) (Some Demo.admin)) Demo.start)
       = @after Demo.demo mc Demo.start
    /\ call_allowed POST "Jobs" mc = true.
Proof.
  apply (@route_response_follows_call Demo.demo
           (Demo.request POST ["Jobs"] (JObj []) (Some Demo.admin)) Demo.start
           (res_status_json 201 (JObj [("job", JStr "row")]))).
  - reflexivity.
  - intros [req' [H|H]]; simpl in H.
    + unfold ensureAdmin_outcome in H.
      destruct (not_admin req'); discriminate H.
    + unfold Demo.demo_guard in H.
      destruct (user req'); discriminate H.
Defined.

(* ===================================================================== *)
(** * Who may call what *)
(* ===================================================================== *)

(** X8.  The endpoints registered without authorization middleware (GET
    under /companies and /jobs, POST /auth/token and /auth/register) do
    not look at [req.user]: the response and the state afterwards are the
    same whoever sends the request, and with no user at all. *)
Theorem public_endpoints_ignore_user `{E : Env} (req : Request) (w : World)
    (u : option (Obj JsValue)) :
  public_endpoint req = true ->
  app (with_user req u) w = app req w.
Proof.
  intros Hp. destruct req as [m p q b u0 ps0].
  unfold public_endpoint in Hp. simpl in Hp. unfold with_user. simpl.
  destruct m; try discriminate;
    destruct p as [|r [|x [|y p]]]; try discriminate;
    repeat match type of Hp with
      | context [String.eqb ?a ?c] =>
          destruct (String.eqb_spec a c); [subst|]; simpl in Hp
      end;
    try discriminate;
    unfold app, layers; simpl; unfold route_match; simpl;
    reflexivity.
Qed.

(** X8 in the small environment: GET /jobs/7 asked by an admin and by
    nobody. *)
Lemma public_endpoints_ignore_user_witness :
  @app Demo.demo (Demo.request GET ["jobs"; "7"] JNull (Some Demo.admin)) Demo.start
  = @app Demo.demo (Demo.request GET ["jobs"; "7"] JNull None) Demo.start.
Proof.
  exact (@public_endpoints_ignore_user Demo.demo
           (Demo.request GET ["jobs"; "7"] JNull None) Demo.start
           (Some Demo.admin) eq_refl).
Defined.




(* ===================================================================== *)
(** * The query conversions of GET /jobs and GET /companies *)
(* ===================================================================== *)

Section SetMore.
Context {V : Type}.
Implicit Types (o : Obj V) (k : string) (v : V).




End SetMore.

Section QueryConversions.
Context `{E : Env}.









End QueryConversions.

(* ===================================================================== *)
(** * Identifiers in paths *)
(* ===================================================================== *)

(** X12.  DELETE /jobs/:id, once the imported [ensureAdmin] has let it
    through, hands the [id] segment to [Job.remove] as the string it is,
    and on success answers with the number it writes: for a segment of
    decimal digits (leading zeros allowed) whose value [n] is at most 2^53,
    so that the number holds it exactly, the body is [{ deleted: n }]. *)
Theorem jobs_delete_decimal_id `{E : Env} (req : Request) (w : World)
    (id : string) (n : N) (v : JsValue) :
  method req = DELETE ->
  path req = ["jobs"; id] ->
  auth_ensureAdmin (routed req [("id", id)]) = Next ->
  id <> "" ->
  digits_value 0 id = Some n ->
  exact_integer n ->
  fst (model (Job_remove id) (db w)) = Return v ->
  fst (app req w) = Some (res_json (JObj [("deleted", JNum (Finite false n 0))]))
  /\ calls (snd (app req w)) = calls w ++ [Job_remove id].
Proof.
  intros Hm Hp Ha Hne Hd _ Hr.
  rewrite (admin_guarded_app req w jobs_delete [("id", id)]).
  - rewrite Ha. unfold jobs_delete, try_next, bind, call, param. simpl.
    destruct (model (Job_remove id) (db w)) as [res d']; simpl in Hr; subst res.
    simpl. rewrite (StringToNumber_digits id n Hne Hd). split; reflexivity.
  - rewrite Hm, Hp. unfold admin_guarded_endpoint.
    rewrite (eqb_neq_false _ _ Hne). reflexivity.
Qed.

(** X12 in the small environment: DELETE /jobs/007 by an admin. *)
Lemma jobs_delete_decimal_id_witness :
  fst (@app Demo.demo (Demo.request DELETE ["jobs"; "007"] JNull (Some Demo.admin))
            Demo.start)
  = Some (res_json (JObj [("deleted", JNum (Finite false 7 0))])).
Proof.
  apply (@jobs_delete_decimal_id Demo.demo
           (Demo.request DELETE ["jobs"; "007"] JNull (Some Demo.admin))
           Demo.start "007" 7%N (JStr "007"));
    first [reflexivity | discriminate | unfold exact_integer; lia].
Defined.

(** X13.  POST /users/:username/jobs/:id, once the guard has let it
    through, calls [User.applyToJob] with the username as it stands and
    with the number that unary plus makes of [id], without checking that
    number: for text it is NaN, and NaN is what the model is handed.  On
    success the body is [{ applied: jobId }] with that same number.  For
    an [id] of decimal digits whose value is at most 2^53 the number is
    that value. *)
Theorem users_apply_coerces_id `{E : Env} (req : Request) (w : World)
    (username id : string) :
  method req = POST ->
  path req = ["users"; username; "jobs"; id] ->
  username <> "" ->
  id <> "" ->
  ensureCorrectUserOrAdmin
    (routed req [("username", username); ("id", id)]) = Next ->
  calls (snd (app req w))
    = calls w ++ [User_applyToJob username (StringToNumber id)]
  /\ (forall v,
        fst (model (User_applyToJob username (StringToNumber id)) (db w))
          = Return v ->
        fst (app req w)
          = Some (res_json (JObj [("applied", JNum (StringToNumber id))])))
  /\ (starts_non_numeric id = true -> StringToNumber id = NaN)
  /\ (forall n, digits_value 0 id = Some n -> exact_integer n ->
        StringToNumber id = Finite false n 0).
Proof.
  intros Hm Hp Hu Hid Hg.
  apply eqb_neq_false in Hu. pose proof (eqb_neq_false _ _ Hid) as Hid'.
  destruct req as [m p q b u ps0]; simpl in Hm, Hp; subst.
  request_cbn. enter_router. rewrite Hg. dispatch_cbn.
  unfold users_apply, try_next, bind, call, param; simpl.
  repeat split.
  - destruct (model _ (db w)) as [[v|e] d']; reflexivity.
  - intros v Hv.
    destruct (model _ (db w)) as [res d']; simpl in Hv; subst res. reflexivity.
  - apply StringToNumber_non_numeric.
  - intros n Hd _. apply StringToNumber_digits; assumption.
Qed.

(** X13 in the small environment: a logged-in user applying to job 12, and
    to a job named [x]. *)
Lemma users_apply_coerces_id_witness :
  calls (snd (@app Demo.demo
                (Demo.request POST ["users"; "u1"; "jobs"; "12"] JNull
                   (Some Demo.plain_user)) Demo.start))
    = [User_applyToJob "u1" (Finite false 12 0)]
  /\ calls (snd (@app Demo.demo
                   (Demo.request POST ["users"; "u1"; "jobs"; "x"] JNull
                      (Some Demo.plain_user)) Demo.start))
     = [User_applyToJob "u1" NaN].
Proof.
  split.
  - apply (@users_apply_coerces_id Demo.demo
             (Demo.request POST ["users"; "u1"; "jobs"; "12"] JNull
                (Some Demo.plain_user)) Demo.start "u1" "12");
      reflexivity || discriminate.
  - apply (@users_apply_coerces_id Demo.demo
             (Demo.request POST ["users"; "u1"; "jobs"; "x"] JNull
                (Some Demo.plain_user)) Demo.start "u1" "x");
      reflexivity || discriminate.
Defined.

(* ===================================================================== *)
(** * Tokens *)
(* ===================================================================== *)

(** The response in [Hr] is the error handler's, which has no token. *)
Ltac no_token Hr :=
  simpl in Hr; unfold errorHandler, res_status_json, res_json in Hr;
  discriminate Hr.

(** X14.  The /auth routes answer with a token only for what the user
    model returned.  A response [{ token }] of POST /auth/token means
    that the body passed validation, that [User.authenticate] was called
    with the body's [username] and [password] and returned a user, and
    that the token is the one made for that user; likewise for POST
    /auth/register and the user [User.register] returned.  When the call
    throws there is no token in the response. *)
Theorem token_only_for_returned_user `{E : Env} (req : Request) (w : World)
    (t : JsValue) :
  method req = POST ->
  (path req = ["auth"; "token"] ->
   fst (app req w) = Some (res_json (JObj [("token", t)])) ->
   valid (jsonschema_validate (body req) userAuthSchema) = true
   /\ exists username password user,
        destructure (body req) "username" = Return username
        /\ destructure (body req) "password" = Return password
        /\ fst (model (User_authenticate username password) (db w)) = Return user
        /\ createToken user = Return t)
  /\ (path req = ["auth"; "register"] ->
      fst (app req w) = Some (res_status_json 201 (JObj [("token", t)])) ->
      valid (jsonschema_validate (body req) userRegisterSchema) = true
      /\ exists newUser,
           fst (model (User_register (JObj (register_data req))) (db w))
             = Return newUser
           /\ createToken newUser = Return t).
Proof.
  intros Hm. split; intros Hp Hr.
  - destruct req as [m p q b u ps0]; simpl in *; subst.
    unfold app, layers in Hr; simpl in Hr; unfold route_match in Hr; simpl in Hr.
    unfold auth_token, try_next, bind, validate, call, lift in Hr; simpl in Hr.
    destruct (valid (jsonschema_validate b userAuthSchema));
      [|exfalso; no_token Hr].
    split; [reflexivity|]. simpl in Hr.
    destruct (destructure b "username") as [username|e];
      [|exfalso; no_token Hr].
    destruct (destructure b "password") as [password|e];
      [|exfalso; no_token Hr].
    exists username, password.
    destruct (model (User_authenticate username password) (db w))
      as [[user|e] d'];
      [|exfalso; no_token Hr].
    exists user. simpl in Hr.
    destruct (createToken user) as [t'|e];
      [|exfalso; no_token Hr].
    simpl in Hr. injection Hr as <-. repeat split; reflexivity.
  - destruct req as [m p q b u ps0]; simpl in *; subst.
    unfold app, layers in Hr; simpl in Hr; unfold route_match in Hr; simpl in Hr.
    unfold auth_register, try_next, bind, validate, call, lift in Hr; simpl in Hr.
    destruct (valid (jsonschema_validate b userRegisterSchema));
      [|exfalso; no_token Hr].
    split; [reflexivity|]. simpl in Hr.
    unfold register_data. simpl.
    destruct (model _ (db w)) as [[newUser|e] d'];
      [|exfalso; no_token Hr].
    exists newUser. simpl in Hr.
    destruct (createToken newUser) as [t'|e];
      [|exfalso; no_token Hr].
    simpl in Hr. injection Hr as <-. split; reflexivity.
Qed.

(** X14 in the small environment, where registering succeeds. *)
Lemma token_only_for_returned_user_witness :
  exists newUser,
    fst (Demo.demo_model
           (User_register (JObj [("username", JStr "u"); ("isAdmin", JBool false)]))
           0)
      = Return newUser
    /\ @createToken Demo.demo newUser = Return (JStr "token").
Proof.
  apply (proj2 (@token_only_for_returned_user Demo.demo
                  (Demo.request POST ["auth"; "register"]
                     (JObj [("username", JStr "u")]) None)
                  Demo.start (JStr "token") eq_refl));
    reflexivity.
Defined.

(* ===================================================================== *)
(** * Requests no route takes *)
(* ===================================================================== *)

Lemma match_path_length (pat : list Seg) (p : list string) (ps : Obj string) :
  match_path pat p = Some ps -> length pat = length p.
Proof.
  revert p ps. induction pat as [|seg pat IH]; intros [|x p] ps H; simpl in *;
    try discriminate; try reflexivity.
  - destruct seg; discriminate.
  - destruct seg as [s|name].
    + destruct (eqb_ci x s); [|discriminate].
      f_equal. eapply IH. exact H.
    + destruct (String.eqb x ""); [discriminate|].
      destruct (match_path pat p) as [ps'|] eqn:Hm; [|discriminate].
      f_equal. eapply IH. exact Hm.
Qed.

(** X15.  A PUT, a request for the root, and a request whose path has
    more than four segments match no route: they are answered with the
    404 of the catch-all and leave the state as it is. *)
Theorem unrouted_requests_404 `{E : Env} (req : Request) (w : World) :
  method req = PUT \/ path req = [] \/ 4 < length (path req) ->
  app req w = (Some (errorHandler (NotFoundError NotFound_message)), w).
Proof.
  intros H. apply unmatched_404.
  destruct (registered req) eqn:Hreg; [|reflexivity]. exfalso.
  unfold registered in Hreg. apply existsb_exists in Hreg as (entry & Hin & Hm).
  unfold entry_matches in Hm. apply andb_true_iff in Hm as [Hmeth Hpath].
  apply method_eqb_eq in Hmeth.
  destruct (match_path (snd entry) (path req)) as [ps|] eqn:Hmp; [|discriminate].
  apply match_path_length in Hmp.
  assert (Hall : Forall (fun e => fst e <> PUT /\ 1 <= length (snd e) <= 4)
                        route_table).
  { unfold route_table. repeat constructor; simpl; discriminate || lia. }
  rewrite Forall_forall in Hall. destruct (Hall entry Hin) as [Hput Hlen].
  destruct H as [H|[H|H]].
  - congruence.
  - rewrite H in Hmp. simpl in Hmp. lia.
  - lia.
Qed.

(** X15 in the small environment: PUT /jobs/1. *)
Lemma unrouted_requests_404_witness :
  @app Demo.demo (Demo.request PUT ["jobs"; "1"] (JObj []) (Some Demo.admin))
       Demo.start
  = (Some (res_status_json 404 (error_body (JStr "Not Found") 404)), Demo.start).
Proof.
  apply (@unrouted_requests_404 Demo.demo
           (Demo.request PUT ["jobs"; "1"] (JObj []) (Some Demo.admin)) Demo.start).
  left. reflexivity.
Defined.

(* ===================================================================== *)
(** * The repository's tests, replayed *)
(* ===================================================================== *)

(** helpers/sql.test.js, "works: single field". *)
Example sql_single_field :
  sqlForPartialUpdate [("firstName", JStr "John")] [("firstName", "first_name")]
  = Return (mkSqlUpdate (dquote ++ "first_name" ++ dquote ++ "=$1")
                        [JStr "John"]).
Proof. reflexivity. Qed.

(** helpers/sql.test.js, "works: multiple fields". *)
Example sql_multiple_fields :
  sqlForPartialUpdate
    [("firstName", JStr "John"); ("age", JNum (Finite false 30 0))]
    [("firstName", "first_name"); ("age", "age")]
  = Return (mkSqlUpdate
              (dquote ++ "first_name" ++ dquote ++ "=$1, "
               ++ dquote ++ "age" ++ dquote ++ "=$2")
              [JStr "John"; JNum (Finite false 30 0)]).
Proof. reflexivity. Qed.

(** helpers/sql.test.js, "works: no jsToSql mappings". *)
Example sql_no_mappings :
  sqlForPartialUpdate
    [("firstName", JStr "John"); ("age", JNum (Finite false 30 0))] []
  = Return (mkSqlUpdate
              (dquote ++ "firstName" ++ dquote ++ "=$1, "
               ++ dquote ++ "age" ++ dquote ++ "=$2")
              [JStr "John"; JNum (Finite false 30 0)]).
Proof. reflexivity. Qed.

(** app.test.js, "not found for site 404". *)
Example app_not_found :
  option_map status
    (fst (@app Demo.demo (Demo.request GET ["no-such-path"] JNull None)
               Demo.start))
  = Some 404%Z.
Proof. reflexivity. Qed.

(** config.test.js, "works", from whatever environment the test starts
    in: the four variables are set and the module is loaded; then four are
    deleted, and [NODE_ENV] is set to [test]. *)
Example config_from_env (env : ProcessEnv) :
  let env1 :=
    set (set (set (set env "SECRET_KEY" "abc") "PORT" "5000")
             "DATABASE_URL" "other") "NODE_ENV" "other" in
  let config := load env1 in
  let env2 :=
    delete (delete (delete (delete env1 "SECRET_KEY") "PORT")
                   "BCRYPT_WORK_FACTOR") "DATABASE_URL" in
  let env3 := set env2 "NODE_ENV" "test" in
  exported_SECRET_KEY config = "abc"
  /\ exported_PORT config = Finite false 5000 0
  /\ exported_getDatabaseUri config env1 = "other"
  /\ exported_BCRYPT_WORK_FACTOR config = 12%N
  /\ exported_getDatabaseUri config env2 = "postgresql:///jobly"
  /\ exported_getDatabaseUri config env3 = "postgresql:///jobly_test".
Proof.
  simpl. unfold SECRET_KEY, PORT, BCRYPT_WORK_FACTOR, getDatabaseUri.
  repeat split.
  - rewrite !get_set_other by discriminate. rewrite get_set_same. reflexivity.
  - rewrite !get_set_other by discriminate. rewrite get_set_same. reflexivity.
  - rewrite get_set_same, get_set_other by discriminate.
    rewrite get_set_same. reflexivity.
  - rewrite get_set_same. reflexivity.
  - rewrite !get_delete_other by discriminate. rewrite get_set_same.
    rewrite get_delete_same. reflexivity.
  - rewrite get_set_same. reflexivity.
Qed.
